(** * drive-folder-listener: a shallow embedding of the notification engine

    The development follows the Python sources under [app/]:

    - [app/dify_client.py]  : [DifyClient.upload_file]   (module [DifyClient])
    - [app/google_drive.py] : [download_file]            (module [GoogleDrive])
    - [app/database.py]     : the two tables             (module [Database])
    - [app/main.py]         : [process_file], [drive_webhook],
                              [setup_monitoring]         (modules [Pipeline],
                                                          [Webhook], [Setup])
    - [app/scheduler.py]    : [renew_channels]           (module [Scheduler])

    Everything outside the process (Google Drive, Dify, the SQL engine, the
    file system's refusal to delete a file) is an explicit oracle argument of
    the embedded function, so that every theorem quantifies over all the
    behaviours of the outside world the source has a handler for. *)

From Stdlib Require Import ZArith QArith Lqa Lia List Bool Ascii.
From stdpp Require Import base gmap strings list.

Local Open Scope string_scope.
Local Open Scope nat_scope.

(** ** Python results: a value or a raised exception *)

Inductive result (A : Type) : Type :=
| Return (a : A)
| Raise (e : string).
Arguments Return {A} a.
Arguments Raise {A} e.

Definition raises {A} (r : result A) : bool :=
  match r with Raise _ => true | Return _ => false end.

(** Python truthiness of an [Optional[str]]: [None] and the empty string are
    falsy. *)
Definition truthy (s : option string) : bool :=
  match s with
  | None => false
  | Some s => negb (String.eqb s "")
  end.

(** ** app/dify_client.py *)

Module DifyClient.

(** What [response.json()] followed by [result.get("id")] can see: a body
    that is no JSON object (either call raises), or an object whose ["id"]
    member is present or not. *)
Inductive body : Type :=
| BodyUndecodable
| BodyObject (id : option string).

(** What one [await client.post(...)] does: raise (timeout, connection
    error), or deliver a response. *)
Inductive post_outcome : Type :=
| PostRaises (e : string)
| Response (status_code : Z) (b : body).

(** The Ingestion Gateway seen from the client: the outcome of the post of
    attempt number [attempt] (0-based, the loop variable of the source). *)
Definition gateway : Type := nat → post_outcome.

(** A gateway fails an attempt when the post raises or answers with a
    status other than 200. *)
Definition fails (o : post_outcome) : Prop :=
  match o with
  | PostRaises _ => True
  | Response status_code _ => status_code ≠ 200%Z
  end.

(** Control flow of one iteration of the [for] loop. *)
Inductive flow : Type :=
| FlowReturn (v : option string)
| FlowContinue.

(** Observable record of one call of [upload_file]. *)
Record upload_run : Type := UploadRun {
  outcome : result (option string);
  posts : nat;      (* calls of client.post *)
  accepted : nat;   (* posts answered with status 200 *)
  sleeps : nat      (* asyncio.sleep(2) before a retry *)
}.

Definition count_post (r : upload_run) : upload_run :=
  UploadRun (outcome r) (S (posts r)) (accepted r) (sleeps r).
Definition count_accepted (r : upload_run) : upload_run :=
  UploadRun (outcome r) (posts r) (S (accepted r)) (sleeps r).
Definition count_sleep (r : upload_run) : upload_run :=
  UploadRun (outcome r) (posts r) (accepted r) (S (sleeps r)).
Definition finish (v : result (option string)) (r : upload_run) : upload_run :=
  UploadRun v (posts r) (accepted r) (sleeps r).

(** dify_client.py lines 33-40: what the [try] body does with a response. *)
Definition on_response (retries attempt : nat) (status_code : Z) (b : body)
  : result flow :=
  if negb (status_code =? 200)%Z then
    if Nat.eqb attempt (retries - 1) then Return (FlowReturn None)
    else Return FlowContinue
  else
    match b with
    | BodyUndecodable => Raise "response.json"
    | BodyObject id => Return (FlowReturn id)
    end.

(** dify_client.py lines 42-47: the [except Exception] handler. *)
Definition on_exception (retries attempt : nat) : flow * bool (* slept *) :=
  if Nat.eqb attempt (retries - 1) then (FlowReturn None, false)
  else (FlowContinue, true).

(** dify_client.py lines 20-47: one iteration.  [exists_] tells whether
    [open(file_path, "rb")] finds the file. *)
Definition attempt_once (gw : gateway) (exists_ : bool) (retries attempt : nat)
    (r : upload_run) : flow * upload_run :=
  if negb exists_ then
    (* open raises FileNotFoundError, caught by the handler *)
    let '(f, slept) := on_exception retries attempt in
    (f, if slept then count_sleep r else r)
  else
    let r := count_post r in
    match gw attempt with
    | PostRaises _ =>
        let '(f, slept) := on_exception retries attempt in
        (f, if slept then count_sleep r else r)
    | Response status_code b =>
        let r := if (status_code =? 200)%Z then count_accepted r else r in
        match on_response retries attempt status_code b with
        | Return f => (f, r)
        | Raise _ =>
            let '(f, slept) := on_exception retries attempt in
            (f, if slept then count_sleep r else r)
        end
    end.

(** dify_client.py lines 19-48: [for attempt in range(retries)], then the
    final [return None]. *)
Fixpoint upload_loop (gw : gateway) (exists_ : bool) (retries : nat)
    (attempts : list nat) (r : upload_run) : upload_run :=
  match attempts with
  | [] => finish (Return None) r
  | attempt :: rest =>
      match attempt_once gw exists_ retries attempt r with
      | (FlowReturn v, r) => finish (Return v) r
      | (FlowContinue, r) => upload_loop gw exists_ retries rest r
      end
  end.

Definition upload_file (gw : gateway) (exists_ : bool) (retries : nat)
  : upload_run :=
  upload_loop gw exists_ retries (seq 0 retries)
    (UploadRun (Return None) 0 0 0).

End DifyClient.

(** ** app/config.py *)

Module Config.

(** The one setting the engine's logic reads, as the string it is built
    from: the default of the source is [Path("./temp")]. *)
Record Settings : Type := { TEMP_DOWNLOAD_PATH : string }.

Definition default : Settings := {| TEMP_DOWNLOAD_PATH := "./temp" |}.

(** The leading separators of a path, counted and dropped. *)
Fixpoint lstrip (s : string) : nat * string :=
  match s with
  | String c rest =>
      if Ascii.eqb c "/"%char
      then let '(n, rel) := lstrip rest in (S n, rel)
      else (0, s)
  | EmptyString => (0, s)
  end.

(** pathlib's [splitroot] on POSIX: the root is [/] for a path that starts
    with a separator, [//] when it starts with exactly two. *)
Definition splitroot (part : string) : string * string :=
  let '(n, rel) := lstrip part in
  (match n with 0 => "" | 2 => "//" | _ => "/" end, rel).

(** [rel.split('/')], with [x] the component being read. *)
Fixpoint split (rel : string) (x : string) : list string :=
  match rel with
  | EmptyString => [x]
  | String c rest =>
      if Ascii.eqb c "/"%char then x :: split rest ""
      else split rest (x ++ String c "")
  end.

(** pathlib's parsing of one path: its root and its components, the empty
    ones and the single dots dropped. *)
Definition parse_parts (part : string) : string * list string :=
  let '(root, rel) := splitroot part in
  (root,
   List.filter (λ x, negb (String.eqb x "") && negb (String.eqb x "."))
     (split rel "")).

(** [str] of a parsed path. *)
Definition format_parsed_parts (root : string) (parts : list string) : string :=
  let s := root ++ String.concat "/" parts in
  if String.eqb s "" then "." else s.

(** [str(Path(part))]. *)
Definition path_str (part : string) : string :=
  let '(root, parts) := parse_parts part in format_parsed_parts root parts.

(** [str(Path(base) / name)] on POSIX: a [name] with a root replaces the
    base, the components of any other are appended to those of the base. *)
Definition path_div (base name : string) : string :=
  let '(root2, parts2) := parse_parts name in
  if String.eqb root2 ""
  then let '(root, parts) := parse_parts base in
       format_parsed_parts root (parts ++ parts2)%list
  else format_parsed_parts root2 parts2.

End Config.

(** ** app/database.py *)

Module Database.

(** Timestamps ([DateTime] columns, [datetime.utcnow()]) are microseconds
    since the epoch. *)
Definition datetime : Type := Z.

Definition hours (n : Z) : Z := (n * 3600 * 1000000)%Z.

(** Table [processed_files]; [file_id] is declared [unique=True]. *)
Record ProcessedFile : Type := {
  pf_file_id : string;
  pf_file_name : string;
  pf_processed_at : datetime
}.

(** Table [notification_channels]; [id] is the integer primary key. *)
Record NotificationChannel : Type := {
  nc_id : nat;
  nc_channel_id : string;
  nc_folder_id : string;
  nc_expiration : datetime
}.

(** [db.query(ProcessedFile).filter_by(file_id=file_id).first()] *)
Definition first_processed (file_id : string) (rows : list ProcessedFile)
  : option ProcessedFile :=
  List.find (λ r, String.eqb (pf_file_id r) file_id) rows.

(** [db.query(NotificationChannel.folder_id).filter_by(channel_id=...).first()] *)
Definition first_channel (channel_id : string) (rows : list NotificationChannel)
  : option string :=
  nc_folder_id <$> List.find (λ r, String.eqb (nc_channel_id r) channel_id) rows.

(** [db.add(ProcessedFile(...)); db.commit()]: the flush is refused when the
    unique constraint on [file_id] is violated or when the store fails
    ([store_ok = false]); the row is appended otherwise. *)
Definition insert_processed (store_ok : bool) (row : ProcessedFile)
    (rows : list ProcessedFile) : result (list ProcessedFile) :=
  match first_processed (pf_file_id row) rows with
  | Some _ => Raise "IntegrityError"
  | None => if store_ok then Return (rows ++ [row])%list else Raise "OperationalError"
  end.

(** [db.add(NotificationChannel(...)); db.commit()]: refused when the
    unique constraint on [channel_id] is violated or when the store fails. *)
Definition insert_channel (store_ok : bool) (row : NotificationChannel)
    (rows : list NotificationChannel) : result (list NotificationChannel) :=
  match first_channel (nc_channel_id row) rows with
  | Some _ => Raise "IntegrityError"
  | None => if store_ok then Return (rows ++ [row])%list else Raise "OperationalError"
  end.

(** The row with primary key [id]. *)
Definition channel_by_id (id : nat) (rows : list NotificationChannel)
  : option NotificationChannel :=
  List.find (λ r, Nat.eqb (nc_id r) id) rows.

(** Number of rows of [processed_files] for one [file_id]. *)
Definition rows_for (file_id : string) (rows : list ProcessedFile) : nat :=
  length (List.filter (λ r, String.eqb (pf_file_id r) file_id) rows).

End Database.

(** ** app/google_drive.py *)

Module GoogleDrive.

(** What a temporary file holds: the whole of a Drive file, or the part
    written before the download broke. *)
Inductive content : Type :=
| Complete (file_id : string)
| Truncated (file_id : string).

(** The three ways [download_file] can go: [get_media] or [open] raises
    before anything is written; [open] creates (or truncates) the file and
    [next_chunk] raises; every chunk arrives. *)
Inductive download_outcome : Type :=
| DownloadFailsBeforeOpen
| DownloadFailsAfterOpen
| DownloadCompletes.

(** google_drive.py lines 93-105; never raises. *)
Definition download_file (o : download_outcome) (file_id destination_path : string)
    (fs : gmap string content) : bool * gmap string content :=
  match o with
  | DownloadFailsBeforeOpen => (false, fs)
  | DownloadFailsAfterOpen => (false, <[destination_path := Truncated file_id]> fs)
  | DownloadCompletes => (true, <[destination_path := Complete file_id]> fs)
  end.

(** The dict [setup_watch] returns. *)
Record channel_info : Type := {
  ci_channel_id : string;
  ci_folder_id : string;
  ci_expiration : Database.datetime
}.

(** The provider during one [setup_watch]: [files().get] (folder
    verification) and [files().watch], the latter yielding
    [response['id']] and the converted [response['expiration']]. *)
Record watch_api : Type := {
  files_get : result unit;
  files_watch : result (string * Database.datetime)
}.

(** google_drive.py lines 39-75: every failure is re-raised. *)
Definition setup_watch (api : watch_api) (folder_id : string)
  : result channel_info :=
  match files_get api with
  | Raise e => Raise ("Cannot access folder. " ++ e)
  | Return _ =>
      match files_watch api with
      | Raise e => Raise e
      | Return (id, expiration) =>
          Return {| ci_channel_id := id; ci_folder_id := folder_id;
                    ci_expiration := expiration |}
      end
  end.

(** One entry of [results.get('files', [])]. *)
Record DriveFile : Type := {
  df_id : string;
  df_name : string;
  df_createdTime : string;
  df_mimeType : string
}.

End GoogleDrive.

(** ** app/main.py: the file processing pipeline *)

Module Pipeline.
Import Config Database GoogleDrive DifyClient.

(** The state a pipeline run reads and writes: the module-level set
    [processing_files], the committed rows of [processed_files], the files
    under the temporary directory, and two counters of what was sent to the
    Ingestion Gateway. *)
Record World : Type := {
  processing_files : gset string;
  processed_files : list ProcessedFile;
  temp_files : gmap string content;
  dify_posts : nat;
  dify_accepted : nat
}.

Definition with_processing_files (s : gset string) (w : World) : World :=
  {| processing_files := s; processed_files := processed_files w;
     temp_files := temp_files w; dify_posts := dify_posts w;
     dify_accepted := dify_accepted w |}.
Definition with_processed_files (rows : list ProcessedFile) (w : World) : World :=
  {| processing_files := processing_files w; processed_files := rows;
     temp_files := temp_files w; dify_posts := dify_posts w;
     dify_accepted := dify_accepted w |}.
Definition with_temp_files (fs : gmap string content) (w : World) : World :=
  {| processing_files := processing_files w; processed_files := processed_files w;
     temp_files := fs; dify_posts := dify_posts w;
     dify_accepted := dify_accepted w |}.
Definition with_dify (posted accepted_ : nat) (w : World) : World :=
  {| processing_files := processing_files w; processed_files := processed_files w;
     temp_files := temp_files w; dify_posts := dify_posts w + posted;
     dify_accepted := dify_accepted w + accepted_ |}.

(** What the outside world does during one run. *)
Record Env : Type := {
  query_raises : bool;          (* db.query(ProcessedFile)...first() raises *)
  download : download_outcome;  (* drive_service.download_file *)
  dify : gateway;               (* the posts of dify_client.upload_file *)
  store_ok : bool;              (* db.commit() is not refused by the store *)
  unlink_ok : bool;             (* temp_path.unlink() does not raise *)
  utcnow : datetime             (* default of processed_at *)
}.

(** main.py line 87 *)
Definition temp_path (settings : Settings) (file_name : string) : string :=
  path_div (TEMP_DOWNLOAD_PATH settings) file_name.

Definition exists_ (path : string) (w : World) : bool :=
  bool_decide (is_Some (temp_files w !! path)).

(** Python's [set.remove]: [KeyError] when the element is absent. *)
Definition set_remove (x : string) (s : gset string) : result (gset string) :=
  if decide (x ∈ s) then Return (s ∖ {[x]}) else Raise "KeyError".

(** [db.rollback()]: the session drops its pending row; the committed
    table, which is all [World] holds, stays as it is. *)
Definition rollback (w : World) : World := w.

(** main.py lines 126-138, the [finally] block. *)
Definition cleanup (env : Env) (file_id path : string) (w : World) : World :=
  let w := match set_remove file_id (processing_files w) with
           | Return s => with_processing_files s w
           | Raise _ => w                      (* except KeyError: pass *)
           end in
  if exists_ path w then
    if unlink_ok env then with_temp_files (delete path (temp_files w)) w
    else w                                       (* warning printed, file stays *)
  else w.

(** main.py lines 123-138: the [except Exception] handler, then the
    [finally] block, applied to the way the [try] body ended. *)
Definition finish_run (settings : Settings) (env : Env)
    (file_id file_name : string) (ended : World * result unit) : World :=
  let '(w, r) := ended in
  let w := match r with
           | Raise _ => rollback w
           | Return _ => w
           end in
  cleanup env file_id (temp_path settings file_name) w.

(** main.py lines 113-122: from the value of [upload_file] to the end of
    the [try] body. *)
Definition after_upload (env : Env) (file_id file_name : string)
    (document_id : option string) (w : World) : World * result unit :=
  if negb (truthy document_id) then (w, Return tt)
  else
    let db_file := {| pf_file_id := file_id; pf_file_name := file_name;
                      pf_processed_at := utcnow env |} in
    match insert_processed (store_ok env) db_file (processed_files w) with
    | Return rows => (with_processed_files rows w, Return tt)
    | Raise e => (w, Raise e)
    end.

(** main.py lines 89-122, the [try] body of a run that nothing
    interleaves with. *)
Definition try_body (settings : Settings) (env : Env)
    (file_id file_name : string) (w : World) : World * result unit :=
  let path := temp_path settings file_name in
  if decide (file_id ∈ processing_files w) then (w, Return tt)
  else
    let w := with_processing_files ({[file_id]} ∪ processing_files w) w in
    if query_raises env then (w, Raise "OperationalError")
    else
      match first_processed file_id (processed_files w) with
      | Some _ => (w, Return tt)
      | None =>
          let '(success, fs) :=
            download_file (download env) file_id path (temp_files w) in
          let w := with_temp_files fs w in
          if negb success then (w, Return tt)
          else
            let run := upload_file (dify env) (exists_ path w) 3 in
            let w := with_dify (posts run) (accepted run) w in
            match outcome run with
            | Raise e => (w, Raise e)
            | Return document_id => after_upload env file_id file_name document_id w
            end
      end.


(** main.py lines 81-138 *)
Definition process_file (settings : Settings) (env : Env)
    (file_id file_name : string) (w : World) : World :=
  finish_run settings env file_id file_name
    (try_body settings env file_id file_name w).

(** *** The same coroutine, cut at its suspension points

    [process_file] is an [async def]: the event loop can run another task
    wherever it awaits something that suspends.  That is [asyncio.sleep(2)]
    on main.py line 105, [client.post] on dify_client.py line 26, the exit of
    [async with httpx.AsyncClient()] (closing the client awaits the closing
    of its connections) and [asyncio.sleep(2)] on dify_client.py line 46.
    [download_file] has no await inside and runs in one piece, and so does
    entering the client.  [pc] names the await a run is suspended at;
    [Closing] keeps what leaves the [async with] block: a return, a
    [continue], or an exception on its way to the handler. *)
Inductive pc : Type :=
| Start
| Sleeping
| AwaitPost (attempt : nat)
| Closing (attempt : nat) (leaving : result flow)
| RetrySleep (attempt : nat)
| Finished.

Section Segments.
Context (settings : Settings) (env : Env) (file_id file_name : string).

(** [upload_file] has returned [document_id]: the rest of the [try]
    body, the handler and the [finally] block run without suspending. *)
Definition upload_returned (document_id : option string) (w : World)
  : pc * World :=
  (Finished,
   finish_run settings env file_id file_name
     (after_upload env file_id file_name document_id w)).

(** dify_client.py lines 42-47, as seen from the event loop. *)
Definition attempt_raised (attempt : nat) (w : World) : pc * World :=
  match on_exception 3 attempt with
  | (FlowReturn v, _) => upload_returned v w
  | (FlowContinue, _) => (RetrySleep attempt, w)
  end.

(** dify_client.py lines 19-31: enter iteration [attempt] of the loop
    (or leave the loop), open the file and send the post. *)
Definition begin_attempt (attempt : nat) (w : World) : pc * World :=
  if 3 <=? attempt then upload_returned None w
  else if negb (exists_ (temp_path settings file_name) w)
  then (Closing attempt (Raise "FileNotFoundError"), w)
  else (AwaitPost attempt, with_dify 1 0 w).

(** dify_client.py lines 33-40: the post of [attempt] is over, and the
    [async with] block is left. *)
Definition resume_post (attempt : nat) (w : World) : pc * World :=
  match dify env attempt with
  | PostRaises e => (Closing attempt (Raise e), w)
  | Response status_code b =>
      let w := if (status_code =? 200)%Z then with_dify 0 1 w else w in
      (Closing attempt (on_response 3 attempt status_code b), w)
  end.

(** The client is closed: the return, the [continue] or the exception that
    left the block takes effect. *)
Definition resume_closing (attempt : nat) (leaving : result flow) (w : World)
  : pc * World :=
  match leaving with
  | Return (FlowReturn v) => upload_returned v w
  | Return FlowContinue => begin_attempt (S attempt) w
  | Raise _ => attempt_raised attempt w
  end.

(** One atomic segment: from the await the run is suspended at to the
    next one, or to the end of the coroutine. *)
Definition step (p : pc) (w : World) : pc * World :=
  let path := temp_path settings file_name in
  match p with
  | Start =>
      if decide (file_id ∈ processing_files w)
      then (Finished, finish_run settings env file_id file_name (w, Return tt))
      else
        let w := with_processing_files ({[file_id]} ∪ processing_files w) w in
        if query_raises env
        then (Finished,
              finish_run settings env file_id file_name
                (w, Raise "OperationalError"))
        else
          match first_processed file_id (processed_files w) with
          | Some _ =>
              (Finished, finish_run settings env file_id file_name (w, Return tt))
          | None => (Sleeping, w)
          end
  | Sleeping =>
      let '(success, fs) :=
        download_file (download env) file_id path (temp_files w) in
      let w := with_temp_files fs w in
      if negb success
      then (Finished, finish_run settings env file_id file_name (w, Return tt))
      else begin_attempt 0 w
  | AwaitPost attempt => resume_post attempt w
  | Closing attempt leaving => resume_closing attempt leaving w
  | RetrySleep attempt => begin_attempt (S attempt) w
  | Finished => (Finished, w)
  end.

(** A run on its own: [fuel] segments one after the other.  Eleven are
    enough for any run (the start, the download, and at most three per
    attempt); a finished run stays finished. *)
Fixpoint segments (fuel : nat) (p : pc) (w : World) : pc * World :=
  match fuel with
  | O => (p, w)
  | S fuel => let '(p, w) := step p w in segments fuel p w
  end.

End Segments.

(** A dispatched run: its arguments, what the outside world does to it,
    and where it stands. *)
Record Task : Type := {
  task_env : Env;
  task_file_id : string;
  task_file_name : string;
  task_pc : pc
}.

Definition dispatch (env : Env) (file_id file_name : string) : Task :=
  {| task_env := env; task_file_id := file_id; task_file_name := file_name;
     task_pc := Start |}.

Definition step_task (settings : Settings) (t : Task) (w : World) : Task * World :=
  let '(p, w) := step settings (task_env t) (task_file_id t) (task_file_name t)
                   (task_pc t) w in
  ({| task_env := task_env t; task_file_id := task_file_id t;
      task_file_name := task_file_name t; task_pc := p |}, w).


(** Two runs on one event loop: the schedule says, segment by segment,
    which of the two runs next ([true] for the first).  A finished run that
    is scheduled again does nothing. *)
Fixpoint run_two (settings : Settings) (schedule : list bool)
    (a b : Task) (w : World) : Task * Task * World :=
  match schedule with
  | [] => (a, b, w)
  | true :: rest =>
      let '(a, w) := step_task settings a w in run_two settings rest a b w
  | false :: rest =>
      let '(b, w) := step_task settings b w in run_two settings rest a b w
  end.


End Pipeline.

(** Two worlds that differ in the way their counters are written. *)
Ltac same_world :=
  unfold Pipeline.with_dify; simpl; f_equal; first [reflexivity | lia].

(** ** Two runs for one file id: what every interleaving preserves *)

Module Idempotence.
Import Database GoogleDrive DifyClient Pipeline.

(** Drive, the store and the first post to Dify all work for a run. *)
Definition works (env : Env) : Prop :=
  query_raises env = false
  ∧ download env = DownloadCompletes
  ∧ store_ok env = true
  ∧ ∃ id, truthy (Some id) = true
          ∧ dify env 0 = Response 200 (BodyObject (Some id)).

(** Every file id has at most one row. *)
Definition unique_rows (rows : list ProcessedFile) : Prop :=
  ∀ file_id, rows_for file_id rows ≤ 1.


Section Invariant.
Context (file_id : string) (w0 : World).

(** Since the two runs were dispatched (in world [w0]) nothing was sent to
    Dify and no row was committed. *)
Definition untouched (w : World) : Prop :=
  processed_files w = processed_files w0
  ∧ dify_posts w = dify_posts w0
  ∧ dify_accepted w = dify_accepted w0.


(** ... and the file had its row already. *)
Definition existing (w : World) : Prop :=
  untouched w ∧ rows_for file_id (processed_files w0) = 1.

(** One post is on its way, no row yet. *)
Definition posted (w : World) : Prop :=
  processed_files w = processed_files w0
  ∧ dify_posts w = S (dify_posts w0)
  ∧ dify_accepted w = dify_accepted w0
  ∧ rows_for file_id (processed_files w0) = 0.

(** One post was sent and accepted, no row yet. *)
Definition accepted_ (w : World) : Prop :=
  processed_files w = processed_files w0
  ∧ dify_posts w = S (dify_posts w0)
  ∧ dify_accepted w = S (dify_accepted w0)
  ∧ rows_for file_id (processed_files w0) = 0.

(** What leaves the [async with] block is the return of a document id. *)
Definition returns_id (leaving : result flow) : Prop :=
  ∃ id, truthy (Some id) = true ∧ leaving = Return (FlowReturn (Some id)).




End Invariant.

End Idempotence.

(** ** app/main.py: the webhook *)

Module Webhook.
Import Database GoogleDrive.

(** [time()] is a float number of seconds; it is modelled by an exact
    rational, so rounding in [current_time - last_check] is not. *)
Definition DEBOUNCE_INTERVAL : Q := 5.

Definition Qltb (x y : Q) : bool := negb (Qle_bool y x).

(** What the HTTP client gets: a [JSONResponse], the [HTTPException] the
    handler raises itself, or an exception that leaves the handler (which
    the ASGI server answers with status 500). *)
Inductive reply : Type :=
| JSONResponse (status_code : Z) (status : string) (files : option nat)
| HTTPException (status_code : Z) (detail : string)
| Unhandled (e : string).

Definition status_code_of (r : reply) : Z :=
  match r with
  | JSONResponse status_code _ _ => status_code
  | HTTPException status_code _ => status_code
  | Unhandled _ => 500
  end.

(** What the outside world does during one call of the handler. *)
Record Env : Type := {
  channel_query_raises : bool;      (* the NotificationChannel query raises *)
  list_new_files : string → result (list DriveFile);
  processed_query_raises : bool;    (* db.query(ProcessedFile.file_id).all() raises *)
  add_task_raises : nat → bool      (* add_task raises at the k-th file *)
}.

(** The state the handler reads: the module-level dict [LAST_CHECK_TIME]
    and the two tables. *)
Record State : Type := {
  LAST_CHECK_TIME : gmap string Q;
  notification_channels : list NotificationChannel;
  processed : list ProcessedFile
}.

(** What one call leaves behind. *)
Record Handled : Type := {
  replied : reply;
  last_check_time : gmap string Q;          (* LAST_CHECK_TIME afterwards *)
  listing_calls : list string;              (* folders given to list_new_files *)
  background_tasks : list (string * string) (* (file id, file name) given to add_task *)
}.

(** main.py lines 176-185: the debounce gate, with the dict it leaves. *)
Definition debounce (table : gmap string Q) (folder_id : string) (current_time : Q)
  : bool * gmap string Q :=
  let last_check := default 0%Q (table !! folder_id) in
  if Qltb (current_time - last_check) DEBOUNCE_INTERVAL then (false, table)
  else (true, <[folder_id := current_time]> table).

(** main.py lines 198-204: the dispatch loop; [k] counts the files done. *)
Fixpoint add_tasks (raises_at : nat → bool) (k : nat) (new_files : list DriveFile)
    (tasks : list (string * string)) : result unit * list (string * string) :=
  match new_files with
  | [] => (Return tt, tasks)
  | file :: rest =>
      if raises_at k then (Raise "add_task", tasks)
      else add_tasks raises_at (S k) rest (tasks ++ [(df_id file, df_name file)])%list
  end.

(** main.py lines 140-212 *)
Definition drive_webhook (env : Env) (st : State)
    (x_goog_channel_id x_goog_resource_state : option string) (current_time : Q)
  : Handled :=
  let quiet r := {| replied := r; last_check_time := LAST_CHECK_TIME st;
                    listing_calls := []; background_tasks := [] |} in
  match x_goog_channel_id, x_goog_resource_state with
  | Some channel_id, Some resource_state =>
      if negb (truthy x_goog_channel_id) || negb (truthy x_goog_resource_state)
      then quiet (HTTPException 400 "Missing required headers")
      else if String.eqb resource_state "sync"
      then quiet (JSONResponse 200 "sync acknowledged" None)
      else if String.eqb resource_state "trash"
      then quiet (JSONResponse 200 "trash ignored" None)
      else if channel_query_raises env
      then quiet (JSONResponse 200 "error" None)
      else
        match first_channel channel_id (notification_channels st) with
        | None => quiet (JSONResponse 200 "ignored" None)
        | Some folder_id =>
            match debounce (LAST_CHECK_TIME st) folder_id current_time with
            | (false, _) => quiet (JSONResponse 200 "debounced" None)
            | (true, table) =>
                let listed r tasks :=
                  {| replied := r; last_check_time := table;
                     listing_calls := [folder_id]; background_tasks := tasks |} in
                match list_new_files env folder_id with
                | Raise e => listed (Unhandled e) []
                | Return new_files =>
                    if processed_query_raises env
                    then listed (Unhandled "OperationalError") []
                    else
                      let processed_ids : gset string :=
                        list_to_set (pf_file_id <$> processed st) in
                      let new_files :=
                        List.filter (λ f, bool_decide (df_id f ∉ processed_ids))
                          new_files in
                      match add_tasks (add_task_raises env) 0 new_files [] with
                      | (Return _, tasks) =>
                          listed (JSONResponse 200 "processing"
                                    (Some (length new_files))) tasks
                      | (Raise _, tasks) =>
                          listed (JSONResponse 200 "error" None) tasks
                      end
                end
            end
        end
  | _, _ => quiet (HTTPException 400 "Missing required headers")
  end.

(** The notification names no channel of the store. *)
Definition unknown_channel (st : State) (x_goog_channel_id : option string) : Prop :=
  match x_goog_channel_id with
  | Some channel_id => first_channel channel_id (notification_channels st) = None
  | None => True
  end.

End Webhook.

(** ** app/main.py: the setup endpoint *)

Module Setup.
Import Database GoogleDrive.

Record Env : Type := {
  service_ready : bool;   (* drive_service and drive_service.service are set *)
  api : watch_api;        (* the provider during setup_watch *)
  store_ok : bool         (* db.commit() is not refused by the store *)
}.

Inductive reply : Type :=
| Success (message : string) (channel : channel_info)
| HTTPException (status_code : Z) (detail : string).

(** The autoincremented primary key. *)
Definition next_id (rows : list NotificationChannel) : nat :=
  S (list_max (nc_id <$> rows)).

(** main.py lines 65-69: the row built from the dict of [setup_watch]. *)
Definition db_channel (rows : list NotificationChannel) (channel : channel_info)
  : NotificationChannel :=
  {| nc_id := next_id rows;
     nc_channel_id := ci_channel_id channel;
     nc_folder_id := ci_folder_id channel;
     nc_expiration := ci_expiration channel |}.

(** main.py lines 53-73, the [try] body: the value returned and the table
    after the commit, or the exception raised. *)
Definition try_body (env : Env) (folder_id : string)
    (rows : list NotificationChannel)
  : result (channel_info * list NotificationChannel) :=
  if negb (service_ready env)
  then Raise "Google Drive service not properly initialized"
  else
    match setup_watch (api env) folder_id with
    | Raise e => Raise e
    | Return channel =>
        match insert_channel (store_ok env) (db_channel rows channel) rows with
        | Raise e => Raise e
        | Return rows => Return (channel, rows)
        end
    end.

(** main.py lines 48-77: the reply and the committed table afterwards. *)
Definition setup_monitoring (env : Env) (folder_id : string)
    (rows : list NotificationChannel) : reply * list NotificationChannel :=
  match try_body env folder_id rows with
  | Return (channel, rows) => (Success "Monitoring setup successfully" channel, rows)
  | Raise e => (HTTPException 500 e, rows)      (* db.rollback() *)
  end.

End Setup.

(** ** app/scheduler.py *)

Module Scheduler.
Import Database GoogleDrive.

(** What the outside world does for the [k]-th channel of a run. *)
Record Env : Type := {
  stop_watch : nat → bool;    (* drive_service.stop_watch: never raises *)
  api : nat → watch_api;      (* the provider during setup_watch *)
  store_ok : nat → bool       (* the store does not fail during db.commit() *)
}.

(** scheduler.py lines 18-22 *)
Definition expiring (now : datetime) (row : NotificationChannel) : Prop :=
  (nc_expiration row ≤ now + hours 6)%Z.

#[global] Instance expiring_dec now row : Decision (expiring now row).
Proof. unfold expiring. apply _. Defined.

Definition candidates (now : datetime) (rows : list NotificationChannel)
  : list NotificationChannel :=
  filter (expiring now) rows.

(** The row as the two assignments of lines 32-33 leave it. *)
Definition renewed (new_channel : channel_info) (row : NotificationChannel)
  : NotificationChannel :=
  {| nc_id := nc_id row;
     nc_channel_id := ci_channel_id new_channel;
     nc_folder_id := nc_folder_id row;
     nc_expiration := ci_expiration new_channel |}.

(** The table with the row of primary key [id] so assigned. *)
Definition assigned (id : nat) (new_channel : channel_info)
    (rows : list NotificationChannel) : list NotificationChannel :=
  (λ row, if Nat.eqb (nc_id row) id then renewed new_channel row else row) <$> rows.

(** The unique index on [channel_id] (database.py line 29): another row
    holds [channel_id] already. *)
Definition channel_id_taken (id : nat) (channel_id : string)
    (rows : list NotificationChannel) : bool :=
  existsb (λ row, negb (Nat.eqb (nc_id row) id)
                  && String.eqb (nc_channel_id row) channel_id) rows.

(** [db.commit()] on line 34, the [UPDATE ... WHERE id = :id] it flushes:
    refused when the unique constraint on [channel_id] is violated or when
    the store fails; the table with the row updated otherwise. *)
Definition update_row (store_ok : bool) (id : nat) (new_channel : channel_info)
    (rows : list NotificationChannel) : result (list NotificationChannel) :=
  if channel_id_taken id (ci_channel_id new_channel) rows
  then Raise "IntegrityError"
  else if store_ok then Return (assigned id new_channel rows)
       else Raise "OperationalError".

(** What a run reports: per channel it has dealt with, whether it was
    renewed, and how the run ended. *)
Record Run : Type := {
  renewals : list bool;
  returned : result unit
}.

(** scheduler.py lines 23-39: the loop over the channels found, with the
    table as committed so far.  When [setup_watch] raises, the handler prints
    (line 38), rolls back (line 39) and the loop goes on.  When the commit is
    refused, the session is left with a failed flush, and the print of line
    38, which reads [channel.channel_id] before the rollback of line 39,
    raises [PendingRollbackError] inside the handler: the exception leaves
    the loop and the function, through [db.close()] (line 41), with the
    channels that follow not dealt with. *)
Fixpoint renew_loop (env : Env) (k : nat) (channels : list NotificationChannel)
    (rows : list NotificationChannel) (renewals : list bool)
  : list NotificationChannel * Run :=
  match channels with
  | [] => (rows, {| renewals := renewals; returned := Return tt |})
  | channel :: rest =>
      let _stopped := stop_watch env k in
      match setup_watch (api env k) (nc_folder_id channel) with
      | Raise _ =>                                  (* db.rollback() *)
          renew_loop env (S k) rest rows (renewals ++ [false])%list
      | Return new_channel =>
          match update_row (store_ok env k) (nc_id channel) new_channel rows with
          | Return rows =>
              renew_loop env (S k) rest rows (renewals ++ [true])%list
          | Raise _ =>
              (rows, {| renewals := renewals;
                        returned := Raise "PendingRollbackError" |})
          end
      end
  end.

(** scheduler.py lines 11-41: the table the run leaves and its report. *)
Definition renew_channels (env : Env) (now : datetime)
    (rows : list NotificationChannel) : list NotificationChannel * Run :=
  renew_loop env 0 (candidates now rows) rows [].

End Scheduler.

(** ** Concrete inputs used by the examples below *)

Module Scenario.
Import Database GoogleDrive DifyClient.

(** A gateway that times out twice and then accepts the document. *)
Definition flaky_gateway : gateway :=
  λ attempt, if attempt <? 2 then PostRaises "timeout"
             else Response 200 (BodyObject (Some "doc-1")).

(** A gateway that answers every post with 503. *)
Definition gateway_down : gateway := λ _, Response 503 BodyUndecodable.

(** A gateway that accepts every post. *)
Definition gateway_up : gateway := λ _, Response 200 (BodyObject (Some "doc-1")).

(** A gateway that answers the first post with 503 and accepts the next. *)
Definition gateway_fails_once : gateway :=
  λ attempt, if attempt =? 0 then Response 503 BodyUndecodable
             else Response 200 (BodyObject (Some "doc-1")).

(** Everything works but the first post. *)
Definition retry_works : Pipeline.Env :=
  {| Pipeline.query_raises := false; Pipeline.download := DownloadCompletes;
     Pipeline.dify := gateway_fails_once; Pipeline.store_ok := true;
     Pipeline.unlink_ok := true; Pipeline.utcnow := 0%Z |}.

(** Everything works. *)
Definition healthy : Pipeline.Env :=
  {| Pipeline.query_raises := false; Pipeline.download := DownloadCompletes;
     Pipeline.dify := gateway_up; Pipeline.store_ok := true;
     Pipeline.unlink_ok := true; Pipeline.utcnow := 0%Z |}.

(** The download never starts. *)
Definition drive_down : Pipeline.Env :=
  {| Pipeline.query_raises := false; Pipeline.download := DownloadFailsBeforeOpen;
     Pipeline.dify := gateway_up; Pipeline.store_ok := true;
     Pipeline.unlink_ok := true; Pipeline.utcnow := 0%Z |}.


(** The upload is accepted, the commit is refused by the store. *)
Definition store_down : Pipeline.Env :=
  {| Pipeline.query_raises := false; Pipeline.download := DownloadCompletes;
     Pipeline.dify := gateway_up; Pipeline.store_ok := false;
     Pipeline.unlink_ok := true; Pipeline.utcnow := 0%Z |}.

(** Nothing in flight, nothing processed, no temporary file. *)
Definition idle : Pipeline.World :=
  {| Pipeline.processing_files := ∅; Pipeline.processed_files := [];
     Pipeline.temp_files := ∅; Pipeline.dify_posts := 0;
     Pipeline.dify_accepted := 0 |}.

(** A run of file [f1] is suspended in its post: [f1] is in flight and its
    download sits in the temporary directory. *)
Definition uploading_f1 : Pipeline.World :=
  {| Pipeline.processing_files := {["f1"]}; Pipeline.processed_files := [];
     Pipeline.temp_files := {["temp/report.pdf" := Complete "f1"]};
     Pipeline.dify_posts := 1; Pipeline.dify_accepted := 0 |}.

(** One watched folder, nothing processed, no listing done yet. *)
Definition watching : Webhook.State :=
  {| Webhook.LAST_CHECK_TIME := ∅;
     Webhook.notification_channels :=
       [ {| nc_id := 1; nc_channel_id := "channel_F_1"; nc_folder_id := "F";
            nc_expiration := 0%Z |} ];
     Webhook.processed := [] |}.

(** The store answers, the listing call raises. *)
Definition listing_fails : Webhook.Env :=
  {| Webhook.channel_query_raises := false;
     Webhook.list_new_files := λ _, Raise "HttpError";
     Webhook.processed_query_raises := false;
     Webhook.add_task_raises := λ _, false |}.

(** Nothing fails, the folder is empty. *)
Definition quiet_folder : Webhook.Env :=
  {| Webhook.channel_query_raises := false;
     Webhook.list_new_files := λ _, Return [];
     Webhook.processed_query_raises := false;
     Webhook.add_task_raises := λ _, false |}.

(** Three channels about to expire at time 0. *)
Definition three_channels : list NotificationChannel :=
  [ {| nc_id := 1; nc_channel_id := "channel_A_1"; nc_folder_id := "A";
       nc_expiration := 10%Z |};
    {| nc_id := 2; nc_channel_id := "channel_B_1"; nc_folder_id := "B";
       nc_expiration := 20%Z |};
    {| nc_id := 3; nc_channel_id := "channel_C_1"; nc_folder_id := "C";
       nc_expiration := 30%Z |} ].

(** The channel ids the provider hands out in a renewal run. *)
Definition renewed_id (k : nat) : string :=
  match k with
  | 0 => "channel_A_2"
  | 1 => "channel_B_2"
  | _ => "channel_C_2"
  end.

(** Registration fails for the second channel of the run and for no other. *)
Definition second_registration_fails : Scheduler.Env :=
  {| Scheduler.stop_watch := λ _, true;
     Scheduler.api := λ k,
       {| files_get := Return tt;
          files_watch := if k =? 1 then Raise "HttpError"
                         else Return (renewed_id k, 1000000000000%Z) |};
     Scheduler.store_ok := λ _, true |}.

(** Every registration goes through; the store fails during the commit of
    the first channel of the run and of no other. *)
Definition first_commit_refused : Scheduler.Env :=
  {| Scheduler.stop_watch := λ _, true;
     Scheduler.api := λ k,
       {| files_get := Return tt;
          files_watch := Return (renewed_id k, 1000000000000%Z) |};
     Scheduler.store_ok := λ k, negb (k =? 0) |}.

End Scenario.

(** ** Further notions used by the properties below *)

Module UploadOutcomes.
Import DifyClient.

(** The attempts [upload_file] goes on after (when one is left): the post
    raises, the status is not 200, or the status is 200 and the body cannot be
    read as a JSON object. *)
Definition retried (o : post_outcome) : Prop :=
  match o with
  | PostRaises _ => True
  | Response status_code b => status_code ≠ 200%Z ∨ b = BodyUndecodable
  end.

End UploadOutcomes.

Module EventLoop.
Import Database Pipeline.

(** Any number of dispatched runs on one event loop: the schedule names,
    segment by segment, the position of the run that goes on (a position with
    no run does nothing). *)
Fixpoint run_many (settings : Config.Settings) (schedule : list nat)
    (tasks : list Task) (w : World) : list Task * World :=
  match schedule with
  | [] => (tasks, w)
  | i :: rest =>
      match tasks !! i with
      | Some t =>
          let '(t, w) := step_task settings t w in
          run_many settings rest (<[i := t]> tasks) w
      | None => run_many settings rest tasks w
      end
  end.

(** A run that is closing its client with a non-empty document id in hand
    has one accepted upload it has not recorded yet. *)
Definition credit (p : pc) : nat :=
  match p with
  | Closing _ (Return (DifyClient.FlowReturn v)) => if truthy v then 1 else 0
  | _ => 0
  end.

(** The row a run records. *)
Definition row_of (t : Task) : ProcessedFile :=
  {| pf_file_id := task_file_id t; pf_file_name := task_file_name t;
     pf_processed_at := utcnow (task_env t) |}.

(** What a run is about: everything but where it stands. *)
Definition identity (t : Task) : Env * string * string :=
  (task_env t, task_file_id t, task_file_name t).

Definition credits (tasks : list Task) : nat :=
  sum_list ((λ t, credit (task_pc t)) <$> tasks).

(** The runs have just been dispatched. *)
Definition dispatched (tasks : list Task) : Prop :=
  Forall (λ t, task_pc t = Start) tasks.

(** What a segment of a run may do to the table and to the counter of
    accepted posts (from [p] in world [w] to [pw]): append the row of its run
    or leave the table alone, and never append without an accepted post it
    had in hand. *)
Definition accounted (env : Env) (file_id file_name : string)
    (p : pc) (w : World) (pw : pc * World) : Prop :=
  (processed_files pw.2 = processed_files w
   ∨ processed_files pw.2
     = (processed_files w
        ++ [{| pf_file_id := file_id; pf_file_name := file_name;
               pf_processed_at := utcnow env |}])%list)
  ∧ length (processed_files pw.2) + credit pw.1 + dify_accepted w
    ≤ length (processed_files w) + credit p + dify_accepted pw.2.

End EventLoop.

Module Service.
Import Database Webhook.

(** The state the next call of the webhook finds: [LAST_CHECK_TIME] as the
    call left it, the tables as they were (the handler itself commits
    nothing). *)
Definition after (st : State) (h : Handled) : State :=
  {| LAST_CHECK_TIME := last_check_time h;
     notification_channels := notification_channels st;
     processed := processed st |}.

(** scheduler.py lines 43-44: [add_job(renew_channels, 'interval', hours=12)],
    the time of the run that follows the run at [now]. *)
Definition next_run (now : datetime) : datetime := (now + hours 12)%Z.

(** What a renewal run may do to a row: nothing, or, if the row was about to
    expire, replace its channel id and expiration. *)
Definition kept_or_renewed (now : datetime) (row row' : NotificationChannel) : Prop :=
  row' = row
  ∨ (Scheduler.expiring now row ∧ ∃ new_channel, row' = Scheduler.renewed new_channel row).

End Service.

(** ** More concrete inputs *)

Module Cases.
Import Database GoogleDrive.

(** File [f1] was uploaded and has its row. *)
Definition f1_row : ProcessedFile :=
  {| pf_file_id := "f1"; pf_file_name := "report.pdf"; pf_processed_at := 0%Z |}.


(** Two runs just dispatched, for two files. *)
Definition two_runs : list Pipeline.Task :=
  [ Pipeline.dispatch Scenario.healthy "f1" "report.pdf";
    Pipeline.dispatch Scenario.store_down "f2" "notes.txt" ].

(** The folder lists two files, nothing fails. *)
Definition two_new_files : Webhook.Env :=
  {| Webhook.channel_query_raises := false;
     Webhook.list_new_files := λ _,
       Return [ {| df_id := "f1"; df_name := "report.pdf";
                   df_createdTime := "2024-05-01T10:00:00.000Z";
                   df_mimeType := "application/pdf" |};
                {| df_id := "f2"; df_name := "notes.txt";
                   df_createdTime := "2024-05-01T10:00:01.000Z";
                   df_mimeType := "text/plain" |} ];
     Webhook.processed_query_raises := false;
     Webhook.add_task_raises := λ _, false |}.

(** One watched folder, file [f1] processed, no listing done yet. *)
Definition watching_f1_processed : Webhook.State :=
  {| Webhook.LAST_CHECK_TIME := ∅;
     Webhook.notification_channels := Webhook.notification_channels Scenario.watching;
     Webhook.processed := [f1_row] |}.

(** The service is ready, the provider registers the watch, the store takes
    the commit. *)
Definition registration_works : Setup.Env :=
  {| Setup.service_ready := true;
     Setup.api := {| files_get := Return tt;
                     files_watch := Return ("channel_G_1", 604800000000%Z) |};
     Setup.store_ok := true |}.

(** Every registration and every commit of a renewal run goes through; the
    [k]-th new channel expires seven days after time 0. *)
Definition registrations_work : Scheduler.Env :=
  {| Scheduler.stop_watch := λ _, true;
     Scheduler.api := λ k,
       {| files_get := Return tt;
          files_watch := Return (Scenario.renewed_id k, hours 168) |};
     Scheduler.store_ok := λ _, true |}.

(** One channel that expires eight hours after time 0. *)
Definition expires_in_eight_hours : NotificationChannel :=
  {| nc_id := 1; nc_channel_id := "channel_A_1"; nc_folder_id := "A";
     nc_expiration := hours 8 |}.

End Cases.

(** ** Theorems about [DifyClient.upload_file] *)

Section UploadFacts.
Import DifyClient.

Lemma attempt_once_posts gw ex retries attempt r :
  posts (attempt_once gw ex retries attempt r).2 ≤ S (posts r).
Proof.
  unfold attempt_once, on_exception, on_response.
  destruct ex; simpl; repeat case_match; simplify_eq/=; lia.
Qed.

Lemma upload_loop_posts gw ex retries attempts r :
  posts (upload_loop gw ex retries attempts r) ≤ posts r + length attempts.
Proof.
  revert r; induction attempts as [|a rest IH]; intros r; simpl; [lia|].
  pose proof (attempt_once_posts gw ex retries a r) as Hp.
  destruct (attempt_once gw ex retries a r) as [[v|] r']; simpl in *.
  - lia.
  - specialize (IH r'). lia.
Qed.

Lemma upload_loop_returns gw ex retries attempts r :
  raises (outcome (upload_loop gw ex retries attempts r)) = false.
Proof.
  revert r; induction attempts as [|a rest IH]; intros r; simpl; [done|].
  destruct (attempt_once gw ex retries a r) as [[v|] r']; simpl; auto.
Qed.

Lemma upload_file_posts_le gw ex retries :
  posts (upload_file gw ex retries) ≤ retries.
Proof.
  unfold upload_file.
  pose proof (upload_loop_posts gw ex retries (seq 0 retries)
                (UploadRun (Return None) 0 0 0)) as H.
  rewrite length_seq in H. simpl in H. lia.
Qed.

Lemma upload_loop_continue gw ex retries a rest r r' :
  attempt_once gw ex retries a r = (FlowContinue, r') →
  upload_loop gw ex retries (a :: rest) r = upload_loop gw ex retries rest r'.
Proof. intros E. simpl. by rewrite E. Qed.

Lemma upload_loop_return gw ex retries a rest r v r' :
  attempt_once gw ex retries a r = (FlowReturn v, r') →
  upload_loop gw ex retries (a :: rest) r = finish (Return v) r'.
Proof. intros E. simpl. by rewrite E. Qed.

(** A failing attempt that is not the last one continues, having posted
    once. *)
Lemma attempt_once_fails_continue gw retries attempt o p a s :
  fails (gw attempt) → attempt ≠ retries - 1 →
  ∃ s', attempt_once gw true retries attempt (UploadRun o p a s)
        = (FlowContinue, UploadRun o (S p) a s').
Proof.
  intros Hf Hne. unfold attempt_once, on_exception, on_response. simpl.
  apply Nat.eqb_neq in Hne.
  destruct (gw attempt) as [e|sc b]; simpl in *.
  - rewrite Hne. eexists; reflexivity.
  - apply Z.eqb_neq in Hf. rewrite Hf. simpl. rewrite Hne.
    eexists; reflexivity.
Qed.

(** A failing last attempt returns [None], having posted once. *)
Lemma attempt_once_fails_last gw retries attempt o p a s :
  fails (gw attempt) → attempt = retries - 1 →
  attempt_once gw true retries attempt (UploadRun o p a s)
  = (FlowReturn None, UploadRun o (S p) a s).
Proof.
  intros Hf He. unfold attempt_once, on_exception, on_response. simpl.
  apply Nat.eqb_eq in He.
  destruct (gw attempt) as [e|sc b]; simpl in *.
  - by rewrite He.
  - apply Z.eqb_neq in Hf. rewrite Hf. simpl. by rewrite He.
Qed.

(** An attempt answered with 200 and an id returns the id. *)
Lemma attempt_once_accepts gw retries attempt o p a s d :
  gw attempt = Response 200 (BodyObject d) →
  attempt_once gw true retries attempt (UploadRun o p a s)
  = (FlowReturn d, UploadRun o (S p) (S a) s).
Proof. intros E. unfold attempt_once. rewrite E. reflexivity. Qed.

(** C5. With [retries = 3] and the file in place, [upload_file] never
    raises and posts at most 3 times; when the gateway fails attempts 0 and
    1 and answers attempt 2 with status 200 and a document id, the call
    returns that id (after 3 posts); when the gateway fails every attempt,
    the call returns [None] after exactly 3 posts. *)
Theorem upload_file_retry_bound (gw : gateway) :
  (∀ ex, raises (outcome (upload_file gw ex 3)) = false
         ∧ posts (upload_file gw ex 3) ≤ 3)
  ∧ (∀ d, fails (gw 0) → fails (gw 1) →
          gw 2 = Response 200 (BodyObject (Some d)) →
          outcome (upload_file gw true 3) = Return (Some d)
          ∧ posts (upload_file gw true 3) = 3)
  ∧ ((∀ attempt, fails (gw attempt)) →
     outcome (upload_file gw true 3) = Return None
     ∧ posts (upload_file gw true 3) = 3).
Proof.
  split; [|split].
  - intros ex. split.
    + apply upload_loop_returns.
    + apply upload_file_posts_le.
  - intros d H0 H1 H2. unfold upload_file. change (seq 0 3) with [0; 1; 2].
    destruct (attempt_once_fails_continue gw 3 0 (Return None) 0 0 0 H0)
      as [s0 E0]; [simpl; lia|].
    rewrite (upload_loop_continue _ _ _ _ _ _ _ E0).
    destruct (attempt_once_fails_continue gw 3 1 (Return None) 1 0 s0 H1)
      as [s1 E1]; [simpl; lia|].
    rewrite (upload_loop_continue _ _ _ _ _ _ _ E1).
    rewrite (upload_loop_return _ _ _ _ _ _ _ _
               (attempt_once_accepts gw 3 2 (Return None) 2 0 s1 _ H2)).
    done.
  - intros Hall. unfold upload_file. change (seq 0 3) with [0; 1; 2].
    destruct (attempt_once_fails_continue gw 3 0 (Return None) 0 0 0 (Hall 0))
      as [s0 E0]; [simpl; lia|].
    rewrite (upload_loop_continue _ _ _ _ _ _ _ E0).
    destruct (attempt_once_fails_continue gw 3 1 (Return None) 1 0 s0 (Hall 1))
      as [s1 E1]; [simpl; lia|].
    rewrite (upload_loop_continue _ _ _ _ _ _ _ E1).
    rewrite (upload_loop_return _ _ _ _ _ _ _ _
               (attempt_once_fails_last gw 3 2 (Return None) 2 0 s1 (Hall 2) eq_refl)).
    done.
Qed.

End UploadFacts.

Lemma upload_file_retry_bound_witness :
  (DifyClient.outcome (DifyClient.upload_file Scenario.flaky_gateway true 3)
   = Return (Some "doc-1")
   ∧ DifyClient.posts (DifyClient.upload_file Scenario.flaky_gateway true 3) = 3)
  ∧ (DifyClient.outcome (DifyClient.upload_file Scenario.gateway_down true 3)
     = Return None
     ∧ DifyClient.posts (DifyClient.upload_file Scenario.gateway_down true 3) = 3).
Proof.
  split.
  - apply (proj1 (proj2 (upload_file_retry_bound Scenario.flaky_gateway)) "doc-1").
    + exact I.
    + exact I.
    + reflexivity.
  - apply (proj2 (proj2 (upload_file_retry_bound Scenario.gateway_down))).
    intros attempt. simpl. discriminate.
Defined.

(** ** Theorems about [Pipeline.process_file] *)

Section PipelineFacts.
Import Config Database GoogleDrive DifyClient Pipeline.
Context (settings : Settings).

Lemma world_eq (w1 w2 : World) :
  processing_files w1 = processing_files w2 →
  processed_files w1 = processed_files w2 →
  temp_files w1 = temp_files w2 →
  dify_posts w1 = dify_posts w2 →
  dify_accepted w1 = dify_accepted w2 →
  w1 = w2.
Proof. destruct w1, w2; simpl; intros; subst; reflexivity. Qed.

Lemma with_dify_with_dify p1 a1 p2 a2 w :
  with_dify p2 a2 (with_dify p1 a1 w) = with_dify (p1 + p2) (a1 + a2) w.
Proof. same_world. Qed.

Lemma with_dify_0 w : with_dify 0 0 w = w.
Proof. destruct w. same_world. Qed.

Lemma exists_with_dify path p a w : exists_ path (with_dify p a w) = exists_ path w.
Proof. reflexivity. Qed.

Lemma exists_insert path c w :
  exists_ path (with_temp_files (<[path := c]> (temp_files w)) w) = true.
Proof.
  unfold exists_. simpl. apply bool_decide_eq_true.
  rewrite lookup_insert_eq. by eexists.
Qed.

Section Alone.
Context (env : Env) (file_id file_name : string).
Local Abbreviation segs := (segments settings env file_id file_name).
Local Abbreviation begin_ := (begin_attempt settings env file_id file_name).
Local Abbreviation returned := (upload_returned settings env file_id file_name).

Lemma segments_finished fuel w : segs fuel Finished w = (Finished, w).
Proof. induction fuel; simpl; auto. Qed.

Lemma segments_S fuel p w :
  segs (S fuel) p w
  = let '(p', w') := step settings env file_id file_name p w in segs fuel p' w'.
Proof. reflexivity. Qed.

Lemma segments_add j : ∀ k p w,
  segs (j + k) p w = let '(p', w') := segs j p w in segs k p' w'.
Proof.
  induction j as [|j IH]; intros k p w; [reflexivity|].
  cbn [Nat.add segments].
  destruct (step settings env file_id file_name p w) as [q u]. apply IH.
Qed.

Lemma segments_stay fuel extra p w w' :
  segs fuel p w = (Finished, w') → segs (fuel + extra) p w = (Finished, w').
Proof. intros H. rewrite segments_add, H. apply segments_finished. Qed.

Opaque finish_run after_upload.

(** One attempt of [upload_file], the file being in place, in segments:
    two of them lead to the return of the call, and two or three to the start
    of the next attempt. *)
Lemma attempt_segments a r w :
  a < 3 →
  match attempt_once (dify env) true 3 a r with
  | (FlowReturn v, r') =>
      segs 2 (AwaitPost a) (with_dify (S (posts r)) (accepted r) w)
      = returned v (with_dify (posts r') (accepted r') w)
  | (FlowContinue, r') =>
      ∃ j, j ≤ 1 ∧
        segs (2 + j) (AwaitPost a) (with_dify (S (posts r)) (accepted r) w)
        = begin_ (S a) (with_dify (posts r') (accepted r') w)
  end.
Proof.
  intros Ha. unfold attempt_once. cbn [negb].
  cbn [segments step Nat.add]. unfold resume_post.
  destruct (dify env a) as [e|sc b].
  - (* the post raises *)
    cbn [resume_closing step]. unfold attempt_raised, on_exception.
    destruct (a =? 3 - 1).
    + reflexivity.
    + exists 1. split; [lia|]. cbn [segments step Nat.add]. by destruct (begin_ _ _).
  - destruct (Z.eqb_spec sc 200) as [->|Hsc].
    + (* status 200 *)
      cbn [Z.eqb Pos.eqb on_response negb].
      replace (with_dify 0 1 (with_dify (S (posts r)) (accepted r) w))
        with (with_dify (S (posts r)) (S (accepted r)) w) by same_world.
      destruct b as [|id]; cbn [resume_closing step].
      * unfold attempt_raised, on_exception.
        destruct (a =? 3 - 1).
        -- reflexivity.
        -- exists 1. split; [lia|]. cbn [segments step Nat.add]. by destruct (begin_ _ _).
      * reflexivity.
    + (* another status *)
      unfold on_response. apply Z.eqb_neq in Hsc. rewrite Hsc. cbn [negb].
      destruct (a =? 3 - 1); cbn [resume_closing step].
      * reflexivity.
      * exists 0. split; [lia|]. cbn [segments step Nat.add]. by destruct (begin_ _ _).
Qed.

(** The uploading part of a run nothing interleaves with: from the
    start of attempt [a], three segments per remaining attempt do what the
    rest of the loop of [upload_file] does. *)
Lemma upload_segments n : ∀ a r w,
  a + n = 3 →
  exists_ (temp_path settings file_name) w = true →
  ∃ v, outcome (upload_loop (dify env) true 3 (seq a n) r) = Return v ∧
       (let '(p, w') := begin_ a (with_dify (posts r) (accepted r) w) in
        segs (3 * n) p w')
       = returned v
           (with_dify (posts (upload_loop (dify env) true 3 (seq a n) r))
                      (accepted (upload_loop (dify env) true 3 (seq a n) r)) w).
Proof.
  induction n as [|n IH]; intros a r w Ha Hex.
  - assert (a = 3) as -> by lia. simpl. eexists; split; reflexivity.
  - assert (Hlt : (3 <=? a) = false) by (apply Nat.leb_gt; lia).
    unfold begin_attempt. rewrite Hlt, exists_with_dify, Hex.
    cbn [negb]. rewrite with_dify_with_dify.
    replace (with_dify (posts r + 1) (accepted r + 0) w)
      with (with_dify (S (posts r)) (accepted r) w) by same_world.
    cbn [seq upload_loop].
    pose proof (attempt_segments a r w ltac:(lia)) as Hatt.
    destruct (attempt_once (dify env) true 3 a r) as [[v|] r'].
    + (* the call returns *)
      exists v. split; [reflexivity|].
      replace (3 * S n) with (2 + (1 + 3 * n)) by lia.
      unfold upload_returned in Hatt |- *.
      by apply segments_stay.
    + (* the next attempt *)
      destruct Hatt as (j & Hj & Hatt).
      destruct (IH (S a) r' w) as (v & Hv & Hs); [lia|done|].
      exists v. split; [exact Hv|].
      replace (3 * S n) with ((2 + j) + (3 * n + (1 - j))) by lia.
      rewrite segments_add, Hatt.
      destruct (begin_ (S a) (with_dify (posts r') (accepted r') w)) as [p' w'].
      unfold upload_returned in Hs |- *.
      by apply segments_stay.
Qed.

(** Cut at its awaits or not, a run nothing interleaves with is the same
    run. *)
Lemma segments_process_file w :
  segs 11 Start w = (Finished, process_file settings env file_id file_name w).
Proof.
  unfold process_file, try_body.
  rewrite (segments_S 10). cbn [step].
  destruct (decide (file_id ∈ processing_files w)) as [Hin|Hin];
    [apply segments_finished|].
  destruct (query_raises env); [apply segments_finished|].
  destruct (first_processed file_id _) as [existing|];
    [apply segments_finished|].
  rewrite (segments_S 9). cbn [step].
  set (w1 := with_processing_files _ w).
  destruct (download env); cbn [download_file negb];
    [apply segments_finished|apply segments_finished|].
  set (w2 := with_temp_files _ w1).
  assert (Hex : exists_ (temp_path settings file_name) w2 = true)
    by apply exists_insert.
  destruct (upload_segments 3 0 (UploadRun (Return None) 0 0 0) w2 eq_refl Hex)
    as (v & Hv & Hs).
  rewrite Hex. fold (upload_file (dify env) true 3) in Hv, Hs.
  rewrite Hv. cbn [posts accepted] in Hs. rewrite with_dify_0 in Hs.
  exact Hs.
Qed.
Transparent finish_run after_upload.
End Alone.

(** *** Schedules *)

Lemma run_two_app s1 : ∀ s2 a b w,
  run_two settings (s1 ++ s2) a b w
  = let '(a', b', w') := run_two settings s1 a b w in run_two settings s2 a' b' w'.
Proof.
  induction s1 as [|[] s1 IH]; intros s2 a b w; [reflexivity| |];
    cbn [app run_two]; destruct (step_task settings _ w) as [t u]; apply IH.
Qed.

Lemma run_two_first n : ∀ a b w,
  run_two settings (replicate n true) a b w
  = let '(p, w') := segments settings (task_env a) (task_file_id a)
                      (task_file_name a) n (task_pc a) w in
    ({| task_env := task_env a; task_file_id := task_file_id a;
        task_file_name := task_file_name a; task_pc := p |}, b, w').
Proof.
  induction n as [|n IH]; intros a b w; [by destruct a|].
  cbn [replicate run_two segments]. unfold step_task.
  destruct (step settings _ _ _ _ w) as [p u]. by rewrite IH.
Qed.

Lemma run_two_second n : ∀ a b w,
  run_two settings (replicate n false) a b w
  = let '(p, w') := segments settings (task_env b) (task_file_id b)
                      (task_file_name b) n (task_pc b) w in
    (a, {| task_env := task_env b; task_file_id := task_file_id b;
           task_file_name := task_file_name b; task_pc := p |}, w').
Proof.
  induction n as [|n IH]; intros a b w; [by destruct b|].
  cbn [replicate run_two segments]. unfold step_task.
  destruct (step settings _ _ _ _ w) as [p u]. by rewrite IH.
Qed.

(** The schedule that lets the first run end before the second starts is
    [process_file] after [process_file]. *)
Lemma run_two_sequential envA idA nameA envB idB nameB w :
  (run_two settings (replicate 11 true ++ replicate 11 false)
     (dispatch envA idA nameA) (dispatch envB idB nameB) w).2
  = process_file settings envB idB nameB (process_file settings envA idA nameA w).
Proof.
  rewrite run_two_app, run_two_first. cbn [dispatch task_env task_file_id
    task_file_name task_pc].
  rewrite segments_process_file, run_two_second.
  cbn [dispatch task_env task_file_id task_file_name task_pc].
  by rewrite segments_process_file.
Qed.

(** *** The [finally] block *)

Lemma not_elem_of_remove (x : string) (s : gset string) : x ∉ s ∖ {[x]}.
Proof. rewrite elem_of_difference, elem_of_singleton. tauto. Qed.


Lemma cleanup_processing_files env file_id path w :
  processing_files (cleanup env file_id path w) = processing_files w ∖ {[file_id]}.
Proof.
  unfold cleanup, set_remove.
  destruct (decide (file_id ∈ processing_files w)) as [Hin|Hin]; simpl;
    destruct (exists_ _ _); try destruct (unlink_ok env); simpl;
    try reflexivity;
    symmetry; apply difference_disjoint_L, disjoint_singleton_r; exact Hin.
Qed.

Lemma cleanup_processed_files env file_id path w :
  processed_files (cleanup env file_id path w) = processed_files w.
Proof. unfold cleanup. repeat case_match; reflexivity. Qed.

Lemma cleanup_dify env file_id path w :
  dify_posts (cleanup env file_id path w) = dify_posts w
  ∧ dify_accepted (cleanup env file_id path w) = dify_accepted w.
Proof. unfold cleanup. repeat case_match; split; reflexivity. Qed.

Lemma cleanup_temp_files env file_id path w :
  temp_files (cleanup env file_id path w)
  = if unlink_ok env then delete path (temp_files w) else temp_files w.
Proof.
  unfold cleanup, exists_.
  destruct (set_remove file_id (processing_files w)) as [s|e]; simpl;
    (case_bool_decide as Hs; destruct (unlink_ok env); simpl; try reflexivity;
     symmetry; apply delete_id; by apply eq_None_not_Some).
Qed.

Lemma finish_run_processing_files env file_id file_name ended :
  processing_files (finish_run settings env file_id file_name ended)
  = processing_files ended.1 ∖ {[file_id]}.
Proof.
  destruct ended as [w [[]|e]]; unfold finish_run, rollback;
    apply cleanup_processing_files.
Qed.

Lemma finish_run_processed_files env file_id file_name ended :
  processed_files (finish_run settings env file_id file_name ended)
  = processed_files ended.1.
Proof.
  destruct ended as [w [[]|e]]; unfold finish_run, rollback;
    apply cleanup_processed_files.
Qed.

Lemma finish_run_temp_files env file_id file_name ended :
  temp_files (finish_run settings env file_id file_name ended)
  = if unlink_ok env
    then delete (temp_path settings file_name) (temp_files ended.1)
    else temp_files ended.1.
Proof.
  destruct ended as [w [[]|e]]; unfold finish_run, rollback;
    apply cleanup_temp_files.
Qed.

Lemma finish_run_dify env file_id file_name ended :
  dify_posts (finish_run settings env file_id file_name ended) = dify_posts ended.1
  ∧ dify_accepted (finish_run settings env file_id file_name ended)
    = dify_accepted ended.1.
Proof.
  destruct ended as [w [[]|e]]; unfold finish_run, rollback; apply cleanup_dify.
Qed.

(** *** The [try] body *)

Lemma after_upload_frame env file_id file_name v w :
  processing_files (after_upload env file_id file_name v w).1 = processing_files w
  ∧ temp_files (after_upload env file_id file_name v w).1 = temp_files w.
Proof.
  unfold after_upload, insert_processed.
  repeat case_match; simplify_eq/=; split; reflexivity.
Qed.


(** *** What a run leaves behind *)

(** After any run, whichever way it ended, the file id is out of the in-flight
    set. *)
Lemma process_file_not_in_flight env file_id file_name w :
  file_id ∉ processing_files (process_file settings env file_id file_name w).
Proof.
  unfold process_file. rewrite finish_run_processing_files.
  apply not_elem_of_remove.
Qed.

(** After any run, the temporary file is gone unless its deletion failed. *)
Lemma process_file_temp_file env file_id file_name w :
  unlink_ok env = true →
  temp_files (process_file settings env file_id file_name w)
    !! temp_path settings file_name = None.
Proof.
  intros Hu. unfold process_file. rewrite finish_run_temp_files, Hu.
  apply lookup_delete_eq.
Qed.


(** A run that finds its file id in flight does nothing but the [finally]
    block. *)
Lemma process_file_in_flight env file_id file_name w :
  file_id ∈ processing_files w →
  process_file settings env file_id file_name w
  = cleanup env file_id (temp_path settings file_name) w.
Proof.
  intros Hin. unfold process_file, try_body.
  destruct (decide _); [reflexivity|contradiction].
Qed.




End PipelineFacts.

(** C2, at the failing input. File [f1] is in flight and its download is in the
    temporary directory; a second run for [f1] returns at once (it is the
    [finally] block and nothing else, and posts nothing), and yet takes the
    entry out of the in-flight set and deletes the file. *)
Theorem process_file_in_flight_is_no_noop :
  "f1" ∈ Pipeline.processing_files Scenario.uploading_f1
  ∧ Pipeline.temp_files Scenario.uploading_f1 !! "temp/report.pdf"
    = Some (GoogleDrive.Complete "f1")
  ∧ Pipeline.process_file Config.default Scenario.healthy
      "f1" "report.pdf" Scenario.uploading_f1
    = Pipeline.cleanup Scenario.healthy "f1" "temp/report.pdf" Scenario.uploading_f1
  ∧ Pipeline.dify_posts
      (Pipeline.process_file Config.default Scenario.healthy
         "f1" "report.pdf" Scenario.uploading_f1)
    = Pipeline.dify_posts Scenario.uploading_f1
  ∧ ("f1" ∉ Pipeline.processing_files
              (Pipeline.process_file Config.default Scenario.healthy
                 "f1" "report.pdf" Scenario.uploading_f1))
  ∧ Pipeline.temp_files
      (Pipeline.process_file Config.default Scenario.healthy
         "f1" "report.pdf" Scenario.uploading_f1) !! "temp/report.pdf" = None.
Proof.
  split; [|split; [|split; [|split; [|split]]]].
  - unfold Scenario.uploading_f1. cbn [Pipeline.processing_files].
    apply elem_of_singleton. reflexivity.
  - reflexivity.
  - apply (process_file_in_flight Config.default).
    unfold Scenario.uploading_f1. cbn [Pipeline.processing_files].
    apply elem_of_singleton. reflexivity.
  - reflexivity.
  - apply process_file_not_in_flight.
  - apply (process_file_temp_file Config.default Scenario.healthy "f1" "report.pdf").
    reflexivity.
Qed.

(** What the [finally] block of a run turned away does to the run in flight.
    On its own, a run whose first post is refused succeeds at the second; when
    a second run for the same file arrives during the first post, its
    [finally] block deletes the temporary file, the retry of the first run
    cannot open it, and both runs end without a row. *)
Example turned_away_run_spoils_retry :
  Database.rows_for "f1"
    (Pipeline.processed_files
       (Pipeline.process_file Config.default Scenario.retry_works
          "f1" "report.pdf" Scenario.idle)) = 1
  ∧ Database.rows_for "f1"
      (Pipeline.processed_files
         (Pipeline.run_two Config.default
            ([true; true; false] ++ replicate 9 true)
            (Pipeline.dispatch Scenario.retry_works "f1" "report.pdf")
            (Pipeline.dispatch Scenario.retry_works "f1" "report.pdf")
            Scenario.idle).2) = 0.
Proof. split; reflexivity. Qed.

(** ... and it takes the file id out of the in-flight set while the first run
    is still in flight, so that a third run gets past the check. *)
Example turned_away_run_lets_a_third_in :
  let first := Pipeline.step Config.default Scenario.healthy "f1" "report.pdf"
                 Pipeline.Start Scenario.idle in
  let second := Pipeline.step Config.default Scenario.healthy "f1" "report.pdf"
                  Pipeline.Start first.2 in
  let third := Pipeline.step Config.default Scenario.healthy "f1" "report.pdf"
                 Pipeline.Start second.2 in
  (first.1, second.1, third.1)
  = (Pipeline.Sleeping, Pipeline.Finished, Pipeline.Sleeping).
Proof. reflexivity. Qed.




(** ** Theorems about [Webhook.drive_webhook] *)

Section WebhookFacts.
Import Database GoogleDrive Webhook.

Lemma Qltb_spec (x y : Q) : Qltb x y = true ↔ (x < y)%Q.
Proof.
  unfold Qltb. rewrite negb_true_iff, <- not_true_iff_false, Qle_bool_iff.
  split; [apply Qnot_le_lt|apply Qlt_not_le].
Qed.

Lemma Qltb_false (x y : Q) : Qltb x y = false ↔ (y <= x)%Q.
Proof.
  unfold Qltb. rewrite negb_false_iff. apply Qle_bool_iff.
Qed.

(** The gate lets a notification pass exactly when the interval has elapsed
    since the folder's last check, a folder never checked counting as checked
    at time 0. *)
Lemma debounce_passes table folder_id current_time :
  (debounce table folder_id current_time).1 = true
  ↔ (DEBOUNCE_INTERVAL <= current_time - default 0 (table !! folder_id))%Q.
Proof.
  unfold debounce. rewrite <- Qltb_false.
  destruct (Qltb _ _); simpl; split; congruence.
Qed.

(** It records the time when it lets pass, and nothing otherwise. *)
Lemma debounce_table table folder_id current_time :
  (debounce table folder_id current_time).2
  = if (debounce table folder_id current_time).1
    then <[folder_id := current_time]> table else table.
Proof. unfold debounce. destruct (Qltb _ _); reflexivity. Qed.

(** C4, as amended. The gate returns true and records [current_time] exactly
    when [current_time - last_check >= DEBOUNCE_INTERVAL], where [last_check]
    is 0 for a folder with no prior check; on rejection the dict is untouched.
    For a folder with no prior check and a first call at a time [t >= 5], the
    calls at [t] and [t + 4] yield (true, false) and the calls at [t] and
    [t + 5] yield (true, true). *)
Theorem debounce_gate (table : gmap string Q) (folder_id : string) (t : Q) :
  ((debounce table folder_id t).1 = true
   ↔ (DEBOUNCE_INTERVAL <= t - default 0 (table !! folder_id))%Q)
  ∧ ((debounce table folder_id t).1 = true →
     (debounce table folder_id t).2 = <[folder_id := t]> table)
  ∧ ((debounce table folder_id t).1 = false →
     (debounce table folder_id t).2 = table)
  ∧ (table !! folder_id = None → (5 <= t)%Q →
     (debounce table folder_id t).1 = true
     ∧ (debounce (debounce table folder_id t).2 folder_id (t + 4)).1 = false
     ∧ (debounce (debounce table folder_id t).2 folder_id (t + 5)).1 = true).
Proof.
  split; [apply debounce_passes|].
  split; [intros H; by rewrite debounce_table, H|].
  split; [intros H; by rewrite debounce_table, H|].
  intros Hnone Ht.
  assert (H1 : (debounce table folder_id t).1 = true).
  { apply debounce_passes. rewrite Hnone. unfold DEBOUNCE_INTERVAL. simpl. lra. }
  split; [exact H1|].
  rewrite debounce_table, H1. split.
  - apply not_true_iff_false. rewrite debounce_passes, lookup_insert_eq.
    unfold DEBOUNCE_INTERVAL. simpl. lra.
  - rewrite debounce_passes, lookup_insert_eq.
    unfold DEBOUNCE_INTERVAL. simpl. lra.
Qed.

(** A missing or empty header is answered 400, and only that. *)
Lemma drive_webhook_bad_request env st channel_id resource_state now :
  status_code_of (replied (drive_webhook env st channel_id resource_state now)) = 400%Z
  ↔ truthy channel_id = false ∨ truthy resource_state = false.
Proof.
  unfold drive_webhook.
  destruct channel_id as [c|], resource_state as [r|]; simpl;
    try (split; [auto|reflexivity]).
  destruct (negb (String.eqb c "")) eqn:Ec, (negb (String.eqb r "")) eqn:Er; simpl;
    try (split; [auto|reflexivity]).
  split; [|intros [|]; discriminate].
  repeat case_match; simpl; discriminate.
Qed.

(** With both headers in place the handler answers 200 whenever the listing
    call and the query of the processed ids return: a failure of the channel
    lookup or of the dispatch is swallowed. *)
Lemma drive_webhook_acknowledges env st c r now :
  truthy (Some c) = true → truthy (Some r) = true →
  (∀ folder_id, raises (list_new_files env folder_id) = false) →
  processed_query_raises env = false →
  status_code_of (replied (drive_webhook env st (Some c) (Some r) now)) = 200%Z.
Proof.
  intros Hc Hr Hl Hq. unfold drive_webhook. rewrite Hc, Hr, Hq. simpl.
  repeat case_match; simpl; try reflexivity.
  match goal with
  | H : list_new_files env ?f = Raise _ |- _ => specialize (Hl f); rewrite H in Hl
  end.
  discriminate.
Qed.

(** C8, as amended. A notification whose state is [sync] or [trash], or whose
    channel is not in the store, triggers no listing call, dispatches no run
    and leaves the debounce table alone; it is answered 200 when both headers
    are present and non-empty, and 400 otherwise. *)
Theorem drive_webhook_ignores env st channel_id resource_state now :
  resource_state = Some "sync" ∨ resource_state = Some "trash"
  ∨ unknown_channel st channel_id →
  listing_calls (drive_webhook env st channel_id resource_state now) = []
  ∧ background_tasks (drive_webhook env st channel_id resource_state now) = []
  ∧ last_check_time (drive_webhook env st channel_id resource_state now)
    = LAST_CHECK_TIME st
  ∧ (truthy channel_id = true → truthy resource_state = true →
     status_code_of (replied (drive_webhook env st channel_id resource_state now))
     = 200%Z)
  ∧ (truthy channel_id = false ∨ truthy resource_state = false →
     status_code_of (replied (drive_webhook env st channel_id resource_state now))
     = 400%Z).
Proof.
  intros H.
  split; [|split; [|split; [|split]]].
  4: { intros Hc Hr. unfold drive_webhook.
       destruct channel_id as [c|]; [|discriminate].
       destruct resource_state as [r|]; [|discriminate].
       rewrite Hc, Hr. simpl.
       destruct H as [[= ->]|[[= ->]|H]]; try reflexivity.
       simpl in H. rewrite H. repeat case_match; reflexivity. }
  4: { apply drive_webhook_bad_request. }
  all: unfold drive_webhook;
    destruct channel_id as [c|], resource_state as [r|]; try reflexivity;
    destruct (negb (truthy (Some c)) || negb (truthy (Some r))); try reflexivity;
    destruct H as [[= ->]|[[= ->]|H]]; try reflexivity;
    simpl in H; rewrite H; repeat case_match; reflexivity.
Qed.

End WebhookFacts.

Lemma drive_webhook_ignores_witness :
  Webhook.listing_calls
    (Webhook.drive_webhook Scenario.quiet_folder Scenario.watching
       (Some "channel_F_1") (Some "sync") 1000) = []
  ∧ Webhook.status_code_of
      (Webhook.replied
         (Webhook.drive_webhook Scenario.quiet_folder Scenario.watching
            (Some "channel_F_1") (Some "sync") 1000)) = 200%Z.
Proof.
  destruct (drive_webhook_ignores Scenario.quiet_folder Scenario.watching
              (Some "channel_F_1") (Some "sync") 1000 (or_introl eq_refl))
    as (Hl & _ & _ & Hs & _).
  split; [exact Hl|]. apply Hs; reflexivity.
Defined.

(** C8, counterexample. A [sync] notification without a channel header is
    answered 400. *)
Lemma drive_webhook_ignores_counterexample :
  Webhook.status_code_of
    (Webhook.replied
       (Webhook.drive_webhook Scenario.quiet_folder Scenario.watching
          None (Some "sync") 1000)) = 400%Z.
Proof. reflexivity. Qed.

(** C1, at the failing input. Both headers are present, the channel is in the
    store and the gate lets the notification pass; the listing call raises,
    nothing in the handler catches it, and the reply is neither 200 nor 400. *)
Theorem drive_webhook_listing_failure :
  Webhook.replied
    (Webhook.drive_webhook Scenario.listing_fails Scenario.watching
       (Some "channel_F_1") (Some "update") 1000)
  = Webhook.Unhandled "HttpError"
  ∧ Webhook.status_code_of
      (Webhook.replied
         (Webhook.drive_webhook Scenario.listing_fails Scenario.watching
            (Some "channel_F_1") (Some "update") 1000)) = 500%Z.
Proof. split; reflexivity. Qed.

Lemma debounce_gate_witness :
  (Webhook.debounce ∅ "F" 100).1 = true
  ∧ (Webhook.debounce (Webhook.debounce ∅ "F" 100).2 "F" (100 + 4)).1 = false
  ∧ (Webhook.debounce (Webhook.debounce ∅ "F" 100).2 "F" (100 + 5)).1 = true.
Proof.
  apply (debounce_gate ∅ "F" 100).
  - reflexivity.
  - vm_compute. discriminate.
Defined.

(** C4, counterexample. With no prior check, the call at [t = 0] is rejected;
    the calls at 0 and 4 yield (false, false), those at 0 and 5 (false, true). *)
Lemma debounce_gate_counterexample :
  (∅ : gmap string Q) !! "F" = None
  ∧ (Webhook.debounce ∅ "F" 0).1 = false
  ∧ (Webhook.debounce (Webhook.debounce ∅ "F" 0).2 "F" 4).1 = false
  ∧ (Webhook.debounce (Webhook.debounce ∅ "F" 0).2 "F" 5).1 = true.
Proof. repeat split. Qed.

(** ** Theorems about [Setup.setup_monitoring] *)

Section SetupFacts.
Import Database GoogleDrive Setup.

(** C9. A call of the setup endpoint either goes through entirely (the
    service is ready, the folder is verified, the watch is registered, the
    commit is accepted), and then exactly one row, holding the channel that is
    returned, is appended to the table; or one of these steps fails, and then
    the table is as it was and the reply is a 500. *)
Theorem setup_monitoring_atomic (env : Env) (folder_id : string)
    (rows : list NotificationChannel) :
  (∃ channel,
      setup_monitoring env folder_id rows
      = (Success "Monitoring setup successfully" channel,
         (rows ++ [db_channel rows channel])%list)
      ∧ nc_channel_id (db_channel rows channel) = ci_channel_id channel
      ∧ nc_folder_id (db_channel rows channel) = folder_id
      ∧ nc_expiration (db_channel rows channel) = ci_expiration channel
      ∧ service_ready env = true
      ∧ raises (files_get (api env)) = false
      ∧ raises (files_watch (api env)) = false
      ∧ raises (insert_channel (store_ok env) (db_channel rows channel) rows) = false)
  ∨ (∃ detail,
      setup_monitoring env folder_id rows = (HTTPException 500 detail, rows)
      ∧ (service_ready env = false
         ∨ raises (files_get (api env)) = true
         ∨ raises (files_watch (api env)) = true
         ∨ ∃ channel, setup_watch (api env) folder_id = Return channel
             ∧ raises (insert_channel (store_ok env) (db_channel rows channel) rows)
               = true)).
Proof.
  unfold setup_monitoring, try_body.
  destruct (service_ready env); simpl; [|right; eexists; split; [reflexivity|auto]].
  unfold setup_watch.
  destruct (files_get (api env)) as [[]|e]; simpl;
    [|right; eexists; split; [reflexivity|auto]].
  destruct (files_watch (api env)) as [[id expiration]|e]; simpl;
    [|right; eexists; split; [reflexivity|auto]].
  set (channel := {| ci_channel_id := id; ci_folder_id := folder_id;
                     ci_expiration := expiration |}).
  destruct (insert_channel (store_ok env) (db_channel rows channel) rows)
    as [rows'|e] eqn:Ei.
  - left. exists channel.
    assert (rows' = (rows ++ [db_channel rows channel])%list) as ->.
    { unfold insert_channel in Ei. repeat case_match; congruence. }
    repeat split; rewrite ?Ei; reflexivity.
  - right. exists e. split; [reflexivity|].
    right; right; right. exists channel. split; [reflexivity|by rewrite Ei].
Qed.

End SetupFacts.

(** ** Theorems about [Scheduler.renew_channels] *)

Section SchedulerFacts.
Import Database GoogleDrive Scheduler.

Lemma channel_by_id_assigned_ne id id' new_channel rows :
  id ≠ id' →
  channel_by_id id' (assigned id new_channel rows) = channel_by_id id' rows.
Proof.
  intros Hne. unfold channel_by_id, assigned.
  induction rows as [|row rows IH]; [reflexivity|].
  cbn [fmap list_fmap List.find].
  destruct (Nat.eqb_spec (nc_id row) id) as [He|He]; simpl.
  - destruct (Nat.eqb_spec (nc_id row) id') as [He'|He']; [congruence|exact IH].
  - destruct (nc_id row =? id'); [reflexivity|exact IH].
Qed.

Lemma channel_by_id_assigned id new_channel rows row :
  channel_by_id id rows = Some row →
  channel_by_id id (assigned id new_channel rows) = Some (renewed new_channel row).
Proof.
  unfold channel_by_id, assigned.
  induction rows as [|r rows IH]; [discriminate|].
  cbn [fmap list_fmap List.find].
  destruct (nc_id r =? id) eqn:He; simpl; rewrite He.
  - by intros [= ->].
  - exact IH.
Qed.

Lemma channel_by_id_elem_of id rows row :
  channel_by_id id rows = Some row → row ∈ rows ∧ nc_id row = id.
Proof.
  unfold channel_by_id. intros H. apply find_some in H as [Hin He].
  split; [by apply list_elem_of_In|by apply Nat.eqb_eq].
Qed.

(** The primary key identifies the row. *)
Lemma channel_by_id_unique rows row :
  NoDup (nc_id <$> rows) → row ∈ rows → channel_by_id (nc_id row) rows = Some row.
Proof.
  unfold channel_by_id.
  induction rows as [|r rows IH]; intros Hnd Hin; [by apply elem_of_nil in Hin|].
  cbn [fmap list_fmap] in Hnd. apply NoDup_cons in Hnd as [Hr Hnd].
  cbn [List.find]. apply elem_of_cons in Hin as [->|Hin].
  - by rewrite Nat.eqb_refl.
  - destruct (Nat.eqb_spec (nc_id r) (nc_id row)) as [He|He]; [|by apply IH].
    exfalso. apply Hr. rewrite He. apply list_elem_of_fmap. by exists row.
Qed.

(** An accepted commit has made the two assignments, the unique index and
    the store permitting. *)
Lemma update_row_Return ok id new_channel rows rows' :
  update_row ok id new_channel rows = Return rows' →
  rows' = assigned id new_channel rows
  ∧ ok = true
  ∧ channel_id_taken id (ci_channel_id new_channel) rows = false.
Proof.
  unfold update_row.
  destruct (channel_id_taken _ _ _); [discriminate|].
  destruct ok; [|discriminate]. by intros [= <-].
Qed.

(** The loop leaves alone every row that is not of a channel it is given,
    however it ends. *)
Lemma renew_loop_frame env : ∀ channels k rows renewals id,
  id ∉ nc_id <$> channels →
  channel_by_id id (renew_loop env k channels rows renewals).1
  = channel_by_id id rows.
Proof.
  induction channels as [|channel rest IH]; intros k rows renewals id Hid;
    [reflexivity|].
  cbn [fmap list_fmap] in Hid. apply not_elem_of_cons in Hid as [Hne Hid].
  cbn [renew_loop].
  destruct (setup_watch _ _) as [new_channel|e]; [|by apply IH].
  destruct (update_row _ _ _ _) as [rows'|e] eqn:Eu; [|reflexivity].
  apply update_row_Return in Eu as (-> & _ & _).
  rewrite IH by exact Hid. by apply channel_by_id_assigned_ne.
Qed.

(** A run that returns has dealt with every channel it was given: the row of
    each ends renewed when its registration returned, as it was when its
    registration raised. *)
Lemma renew_loop_returns env : ∀ channels k rows renewals,
  NoDup (nc_id <$> channels) →
  (∀ c, c ∈ channels → channel_by_id (nc_id c) rows = Some c) →
  returned (renew_loop env k channels rows renewals).2 = Return tt →
  ∀ j c, channels !! j = Some c →
    channel_by_id (nc_id c) (renew_loop env k channels rows renewals).1
    = Some match setup_watch (api env (k + j)) (nc_folder_id c) with
           | Return new_channel => renewed new_channel c
           | Raise _ => c
           end.
Proof.
  induction channels as [|channel rest IH]; intros k rows renewals Hnd Hrows Hret;
    [intros j c H; discriminate|].
  cbn [fmap list_fmap] in Hnd. apply NoDup_cons in Hnd as [Hhead Hnd].
  assert (Hc : channel_by_id (nc_id channel) rows = Some channel)
    by (apply Hrows; left).
  assert (Hother : ∀ c, c ∈ rest → nc_id channel ≠ nc_id c).
  { intros c Hin He. apply Hhead. rewrite He. apply list_elem_of_fmap. by exists c. }
  cbn [renew_loop] in Hret |- *.
  destruct (setup_watch (api env k) (nc_folder_id channel)) as [new_channel|e]
    eqn:Ew.
  - destruct (update_row _ _ _ _) as [rows'|e] eqn:Eu; [|discriminate].
    apply update_row_Return in Eu as (-> & _ & _).
    intros [|j] c Hj.
    + simpl in Hj. injection Hj as <-. rewrite Nat.add_0_r, Ew.
      rewrite renew_loop_frame by exact Hhead.
      by apply channel_by_id_assigned.
    + simpl in Hj. replace (k + S j) with (S k + j) by lia.
      apply IH; [exact Hnd| |exact Hret|exact Hj].
      intros c' Hin. rewrite channel_by_id_assigned_ne by (by apply Hother).
      apply Hrows. by right.
  - intros [|j] c Hj.
    + simpl in Hj. injection Hj as <-. rewrite Nat.add_0_r, Ew.
      rewrite renew_loop_frame by exact Hhead. exact Hc.
    + simpl in Hj. replace (k + S j) with (S k + j) by lia.
      apply IH; [exact Hnd| |exact Hret|exact Hj].
      intros c' Hin. apply Hrows. by right.
Qed.

Lemma candidates_NoDup now rows :
  NoDup (nc_id <$> rows) → NoDup (nc_id <$> candidates now rows).
Proof.
  unfold candidates. induction rows as [|r rows IH]; intros Hnd; [constructor|].
  cbn [fmap list_fmap] in Hnd. apply NoDup_cons in Hnd as [Hr Hnd].
  rewrite filter_cons. destruct (decide (expiring now r)); [|by apply IH].
  cbn [fmap list_fmap]. apply NoDup_cons. split; [|by apply IH].
  intros Hin. apply Hr. apply list_elem_of_fmap in Hin as (c & -> & Hc).
  apply list_elem_of_fmap. exists c. split; [reflexivity|].
  by apply list_elem_of_filter in Hc as [_ Hc].
Qed.

(** What holds of the isolation the handler is there for: in a run in which
    no commit is refused, every channel about to expire is dealt with,
    whatever happened to the others; its row ends with the new channel id
    and expiration (both, together) when its registration returned, and as
    it was, a candidate again of any later run, when its registration
    raised. *)
Lemma renew_channels_registration_failures (env : Env) (now next : datetime)
    (rows : list NotificationChannel) (k : nat) (channel : NotificationChannel) :
  NoDup (nc_id <$> rows) → (now ≤ next)%Z →
  returned (renew_channels env now rows).2 = Return tt →
  candidates now rows !! k = Some channel →
  (∀ new_channel,
     setup_watch (api env k) (nc_folder_id channel) = Return new_channel →
     channel_by_id (nc_id channel) (renew_channels env now rows).1
     = Some (renewed new_channel channel))
  ∧ (raises (setup_watch (api env k) (nc_folder_id channel)) = true →
     channel_by_id (nc_id channel) (renew_channels env now rows).1 = Some channel
     ∧ channel ∈ candidates next (renew_channels env now rows).1).
Proof.
  intros Hnd Hle Hret Hk.
  assert (Hrows : ∀ c, c ∈ candidates now rows →
                    channel_by_id (nc_id c) rows = Some c).
  { intros c Hc. apply channel_by_id_unique; [exact Hnd|].
    by apply list_elem_of_filter in Hc as [_ Hc]. }
  pose proof (renew_loop_returns env (candidates now rows) 0 rows []
                (candidates_NoDup now rows Hnd) Hrows Hret k channel Hk) as Hrow.
  fold (renew_channels env now rows) in Hrow. cbn [Nat.add] in Hrow.
  split.
  - intros new_channel Hw. by rewrite Hw in Hrow.
  - intros Hraise.
    destruct (setup_watch (api env k) (nc_folder_id channel)); [discriminate|].
    split; [exact Hrow|].
    apply channel_by_id_elem_of in Hrow as [Hin _].
    apply list_elem_of_filter. split; [|exact Hin].
    apply list_elem_of_lookup_2 in Hk. apply list_elem_of_filter in Hk as [He _].
    unfold expiring in *. lia.
Qed.

End SchedulerFacts.

(** Three channels about to expire, registration fails for the second: the
    run returns, the first and the third are renewed, the second is as it
    was. *)
Example registration_failure_is_isolated :
  Scheduler.renew_channels Scenario.second_registration_fails 0%Z
    Scenario.three_channels
  = ([ {| Database.nc_id := 1; Database.nc_channel_id := "channel_A_2";
          Database.nc_folder_id := "A";
          Database.nc_expiration := 1000000000000%Z |};
       {| Database.nc_id := 2; Database.nc_channel_id := "channel_B_1";
          Database.nc_folder_id := "B"; Database.nc_expiration := 20%Z |};
       {| Database.nc_id := 3; Database.nc_channel_id := "channel_C_2";
          Database.nc_folder_id := "C";
          Database.nc_expiration := 1000000000000%Z |} ],
     {| Scheduler.renewals := [true; false; true];
        Scheduler.returned := Return tt |}).
Proof. reflexivity. Qed.

(** C7. At the failing input: three channels about to expire, every
    registration goes through, the store fails during the commit of the
    first.  The run does not go on to the remaining channels: the exception
    raised inside the handler of the first channel ends it, no channel has
    been dealt with, and the table is as it was, the second and the third
    channel not renewed although their own registration and commit go
    through. *)
Theorem renew_channels_commit_refused :
  Scheduler.candidates 0%Z Scenario.three_channels = Scenario.three_channels
  ∧ Scheduler.returned
      (Scheduler.renew_channels Scenario.first_commit_refused 0%Z
         Scenario.three_channels).2 = Raise "PendingRollbackError"
  ∧ Scheduler.renewals
      (Scheduler.renew_channels Scenario.first_commit_refused 0%Z
         Scenario.three_channels).2 = []
  ∧ (Scheduler.renew_channels Scenario.first_commit_refused 0%Z
       Scenario.three_channels).1 = Scenario.three_channels
  ∧ (∀ k, 0 < k →
       ∃ new_channel,
         GoogleDrive.setup_watch
           (Scheduler.api Scenario.first_commit_refused k) "B"
         = Return new_channel
         ∧ raises (Scheduler.update_row
                     (Scheduler.store_ok Scenario.first_commit_refused k) 2
                     new_channel Scenario.three_channels) = false).
Proof.
  split; [reflexivity|]. split; [reflexivity|]. split; [reflexivity|].
  split; [reflexivity|].
  intros [|k] Hk; [lia|]. eexists. split; [reflexivity|].
  destruct k as [|[|k]]; reflexivity.
Qed.

(** ** Theorems about two runs for one file id *)

Section IdempotenceFacts.
Import Database GoogleDrive DifyClient Pipeline Idempotence.
Context (settings : Config.Settings).

(** *** Rows *)

Lemma rows_for_app file_id rows row :
  rows_for file_id (rows ++ [row])
  = rows_for file_id rows + (if String.eqb (pf_file_id row) file_id then 1 else 0).
Proof.
  unfold rows_for. rewrite List.filter_app, length_app. simpl.
  destruct (String.eqb _ _); reflexivity.
Qed.

Lemma first_processed_None file_id rows :
  first_processed file_id rows = None ↔ rows_for file_id rows = 0.
Proof.
  unfold first_processed, rows_for.
  induction rows as [|r rows IH]; simpl; [done|].
  destruct (String.eqb _ _); simpl; [split; discriminate|exact IH].
Qed.

Lemma first_processed_Some file_id rows :
  rows_for file_id rows = 1 → ∃ row, first_processed file_id rows = Some row.
Proof.
  intros H. destruct (first_processed file_id rows) as [row|] eqn:E; [eauto|].
  apply first_processed_None in E. lia.
Qed.

(** The unique constraint at work: an insertion keeps every file id at one
    row at most. *)
Lemma insert_processed_unique ok row rows rows' :
  unique_rows rows → insert_processed ok row rows = Return rows' → unique_rows rows'.
Proof.
  unfold insert_processed. intros Hu H.
  destruct (first_processed _ _) eqn:E; [discriminate|].
  destruct ok; [|discriminate]. injection H as <-.
  intros g. rewrite rows_for_app.
  destruct (String.eqb_spec (pf_file_id row) g) as [<-|Hne].
  - apply first_processed_None in E. lia.
  - specialize (Hu g). lia.
Qed.

Lemma after_upload_unique env file_id file_name v w :
  unique_rows (processed_files w) →
  unique_rows (processed_files (after_upload env file_id file_name v w).1).
Proof.
  intros Hu. unfold after_upload.
  destruct (negb (truthy v)); [exact Hu|].
  destruct (insert_processed _ _ _) as [rows'|e] eqn:E; simpl; [|exact Hu].
  eapply insert_processed_unique; eauto.
Qed.

Lemma upload_returned_unique env file_id file_name v w :
  unique_rows (processed_files w) →
  unique_rows (processed_files (upload_returned settings env file_id file_name v w).2).
Proof.
  intros Hu. unfold upload_returned. cbn [snd].
  rewrite finish_run_processed_files. by apply after_upload_unique.
Qed.

Lemma attempt_raised_unique env file_id file_name attempt w :
  unique_rows (processed_files w) →
  unique_rows (processed_files (attempt_raised settings env file_id file_name attempt w).2).
Proof.
  intros Hu. unfold attempt_raised.
  destruct (on_exception 3 attempt) as [[v|] slept]; [|exact Hu].
  by apply upload_returned_unique.
Qed.

Lemma begin_attempt_unique env file_id file_name attempt w :
  unique_rows (processed_files w) →
  unique_rows (processed_files (begin_attempt settings env file_id file_name attempt w).2).
Proof.
  intros Hu. unfold begin_attempt.
  destruct (3 <=? attempt); [by apply upload_returned_unique|].
  destruct (negb _); exact Hu.
Qed.

(** No segment of any run, whatever the outside world does to it, gives a
    file id a second row. *)
Lemma step_unique env file_id file_name p w :
  unique_rows (processed_files w) →
  unique_rows (processed_files (step settings env file_id file_name p w).2).
Proof.
  intros Hu. destruct p as [| |attempt|attempt leaving|attempt|]; cbn [step].
  - destruct (decide _); [cbn [snd fst]; by rewrite finish_run_processed_files|].
    destruct (query_raises env); [cbn [snd fst]; by rewrite finish_run_processed_files|].
    destruct (first_processed _ _); cbn [snd fst];
      [by rewrite finish_run_processed_files|exact Hu].
  - destruct (download env); cbn [download_file negb snd fst];
      rewrite ?finish_run_processed_files; try exact Hu.
    by apply begin_attempt_unique.
  - unfold resume_post.
    destruct (dify env attempt) as [e|sc b]; [exact Hu|].
    destruct (sc =? 200)%Z; exact Hu.
  - unfold resume_closing.
    destruct leaving as [[v|]|e];
      [by apply upload_returned_unique|by apply begin_attempt_unique
      |by apply attempt_raised_unique].
  - by apply begin_attempt_unique.
  - exact Hu.
Qed.


(** *** The segments of a run for which everything works *)

Lemma finish_run_posts env file_id file_name ended :
  dify_posts (finish_run settings env file_id file_name ended) = dify_posts ended.1.
Proof. apply finish_run_dify. Qed.

Lemma finish_run_accepted env file_id file_name ended :
  dify_accepted (finish_run settings env file_id file_name ended)
  = dify_accepted ended.1.
Proof. apply finish_run_dify. Qed.

Section Step.
Context (file_id : string) (w0 : World) (env : Env) (file_name : string).
Context (Hworks : works env).

Local Abbreviation step_ := (step settings env file_id file_name).
Local Abbreviation finish_ := (finish_run settings env file_id file_name).


Lemma step_Start_existing w :
  file_id ∉ processing_files w →
  rows_for file_id (processed_files w) = 1 →
  step_ Start w
  = (Finished,
     finish_ (with_processing_files ({[file_id]} ∪ processing_files w) w, Return tt)).
Proof.
  intros Hin Hrow. cbn [step]. destruct (decide _); [contradiction|].
  destruct Hworks as (-> & _). simpl processed_files.
  destruct (first_processed_Some _ _ Hrow) as [row ->]. reflexivity.
Qed.

Lemma step_Start_fresh w :
  file_id ∉ processing_files w →
  rows_for file_id (processed_files w) = 0 →
  step_ Start w
  = (Sleeping, with_processing_files ({[file_id]} ∪ processing_files w) w).
Proof.
  intros Hin Hrow. cbn [step]. destruct (decide _); [contradiction|].
  destruct Hworks as (-> & _). simpl processed_files.
  apply first_processed_None in Hrow. rewrite Hrow. reflexivity.
Qed.

Lemma step_Sleeping w :
  step_ Sleeping w
  = (AwaitPost 0,
     with_dify 1 0
       (with_temp_files
          (<[temp_path settings file_name := Complete file_id]> (temp_files w)) w)).
Proof.
  cbn [step]. destruct Hworks as (_ & -> & _). cbn [download_file negb].
  unfold begin_attempt. cbn [Nat.leb]. by rewrite exists_insert.
Qed.

Lemma step_AwaitPost w :
  ∃ leaving, returns_id leaving
             ∧ step_ (AwaitPost 0) w = (Closing 0 leaving, with_dify 0 1 w).
Proof.
  cbn [step]. unfold resume_post.
  destruct Hworks as (_ & _ & _ & id & Hid & ->).
  cbn [Z.eqb Pos.eqb on_response negb].
  eexists. split; [|reflexivity]. exists id. split; [exact Hid|reflexivity].
Qed.

Lemma step_Closing leaving w :
  returns_id leaving →
  rows_for file_id (processed_files w) = 0 →
  ∃ w', step_ (Closing 0 leaving) w = (Finished, w')
        ∧ rows_for file_id (processed_files w') = 1
        ∧ dify_posts w' = dify_posts w
        ∧ dify_accepted w' = dify_accepted w.
Proof.
  intros (id & Hid & ->) Hrow. cbn [step resume_closing]. unfold upload_returned.
  destruct Hworks as (_ & _ & Hs & _).
  eexists. split; [reflexivity|].
  rewrite finish_run_processed_files, finish_run_posts, finish_run_accepted.
  unfold after_upload. rewrite Hid. cbn [negb]. unfold insert_processed.
  cbn [pf_file_id]. rewrite Hs.
  apply first_processed_None in Hrow as Hnone. rewrite Hnone.
  cbn [fst processed_files with_processed_files dify_posts dify_accepted].
  rewrite rows_for_app, Hrow. cbn [pf_file_id]. rewrite String.eqb_refl.
  repeat split.
Qed.




End Step.



(** A run on its own for which everything works, as [process_file]. *)
Lemma process_file_works env file_id file_name w :
  works env → file_id ∉ processing_files w →
  (rows_for file_id (processed_files w) = 0 →
   rows_for file_id
     (processed_files (process_file settings env file_id file_name w)) = 1
   ∧ dify_posts (process_file settings env file_id file_name w) = S (dify_posts w)
   ∧ dify_accepted (process_file settings env file_id file_name w)
     = S (dify_accepted w))
  ∧ (rows_for file_id (processed_files w) = 1 →
     processed_files (process_file settings env file_id file_name w)
     = processed_files w
     ∧ dify_posts (process_file settings env file_id file_name w) = dify_posts w
     ∧ dify_accepted (process_file settings env file_id file_name w)
       = dify_accepted w).
Proof.
  intros Hw Hin.
  pose proof (segments_process_file settings env file_id file_name w) as Hseg.
  split; intros Hrow.
  - rewrite (segments_S _ _ _ _ 10), (step_Start_fresh _ _ _ Hw) in Hseg by done.
    rewrite (segments_S _ _ _ _ 9), (step_Sleeping _ _ _ Hw) in Hseg.
    rewrite (segments_S _ _ _ _ 8) in Hseg.
    match type of Hseg with
    | context [step _ _ _ _ (AwaitPost 0) ?u] =>
        destruct (step_AwaitPost file_id env file_name Hw u) as (leaving & Hl & Hs)
    end.
    rewrite Hs, (segments_S _ _ _ _ 7) in Hseg.
    match type of Hseg with
    | context [step _ _ _ _ (Closing 0 leaving) ?u] =>
        destruct (step_Closing file_id env file_name Hw leaving u Hl)
          as (w' & Hs' & Hrow' & Hd' & Ha'); [exact Hrow|]
    end.
    rewrite Hs', segments_finished in Hseg.
    apply (f_equal snd) in Hseg. cbn [snd] in Hseg. rewrite <- Hseg.
    simpl in Hd', Ha'. repeat split; [exact Hrow'|lia|lia].
  - rewrite (segments_S _ _ _ _ 10), (step_Start_existing _ _ _ Hw) in Hseg by done.
    rewrite segments_finished in Hseg.
    apply (f_equal snd) in Hseg. cbn [snd] in Hseg. rewrite <- Hseg.
    rewrite finish_run_processed_files, finish_run_posts, finish_run_accepted.
    repeat split.
Qed.



End IdempotenceFacts.



(** ** More about [DifyClient.upload_file] *)

Section UploadMore.
Import DifyClient UploadOutcomes.
Context (gw : gateway) (retries : nat).

(** What one iteration can do to the counters. *)
Lemma attempt_once_counters ex attempt r :
  let r' := (attempt_once gw ex retries attempt r).2 in
  posts r ≤ posts r' ≤ S (posts r)
  ∧ accepted r ≤ accepted r'
  ∧ accepted r' + posts r ≤ posts r' + accepted r
  ∧ sleeps r ≤ sleeps r' ≤ S (sleeps r)
  ∧ (ex = false → posts r' = posts r).
Proof.
  unfold attempt_once, on_exception, on_response.
  destruct ex; cbn [negb].
  - destruct (gw attempt) as [e|sc b].
    + destruct (attempt =? retries - 1); simpl; repeat split; (lia || discriminate).
    + destruct (sc =? 200)%Z; cbn [negb];
        destruct (attempt =? retries - 1); try destruct b; simpl;
        repeat split; (lia || discriminate).
  - destruct (attempt =? retries - 1); simpl; repeat split; (lia || reflexivity).
Qed.

(** The last iteration never continues and never sleeps. *)
Lemma attempt_once_last ex r :
  ∃ v r', attempt_once gw ex retries (retries - 1) r = (FlowReturn v, r')
          ∧ sleeps r' = sleeps r.
Proof.
  unfold attempt_once, on_exception, on_response. rewrite Nat.eqb_refl.
  destruct ex; cbn [negb]; [|eauto].
  destruct (gw (retries - 1)) as [e|sc b]; [eauto|].
  destruct (sc =? 200)%Z; cbn [negb]; [|eauto].
  destruct b; eauto.
Qed.

Lemma upload_loop_counters ex n : ∀ a r,
  a + n = retries →
  let R := upload_loop gw ex retries (seq a n) r in
  raises (outcome R) = false
  ∧ posts r ≤ posts R ≤ posts r + n
  ∧ accepted r ≤ accepted R
  ∧ accepted R + posts r ≤ posts R + accepted r
  ∧ sleeps r ≤ sleeps R ≤ sleeps r + (n - 1)
  ∧ (ex = false → posts R = posts r).
Proof.
  induction n as [|n IH]; intros a r Ha; cbn [seq upload_loop].
  - simpl. repeat split; (lia || reflexivity).
  - pose proof (attempt_once_counters ex a r) as Hc. cbn zeta in Hc.
    destruct (Nat.eq_dec n 0) as [->|Hn].
    + (* the last attempt *)
      assert (a = retries - 1) as -> by lia.
      destruct (attempt_once_last ex r) as (v & r' & E & Hs).
      rewrite E in Hc |- *. cbn [snd] in Hc. simpl.
      destruct Hc as (H1 & H2 & H3 & H4 & H5).
      repeat split; first [reflexivity | lia | exact H5].
    + destruct (attempt_once gw ex retries a r) as [[v|] r']; cbn [snd] in Hc.
      * simpl. destruct Hc as (H1 & H2 & H3 & H4 & H5).
        repeat split; first [reflexivity | lia | exact H5].
      * specialize (IH (S a) r' ltac:(lia)). cbn zeta in IH.
        destruct IH as (I0 & I1 & I2 & I3 & I4 & I5).
        destruct Hc as (H1 & H2 & H3 & H4 & H5).
        split; [exact I0|]. repeat split; try lia.
        intros He. rewrite I5, H5 by exact He. reflexivity.
Qed.

(** X1. Whatever the gateway does, whether the file is there or not and for
    every number of retries, [upload_file] returns (no exception leaves it);
    it posts at most [retries] times, at most one accepted post per post, and
    sleeps at most [retries - 1] times. *)
Theorem upload_file_bounds (ex : bool) :
  raises (outcome (upload_file gw ex retries)) = false
  ∧ posts (upload_file gw ex retries) ≤ retries
  ∧ accepted (upload_file gw ex retries) ≤ posts (upload_file gw ex retries)
  ∧ sleeps (upload_file gw ex retries) ≤ retries - 1.
Proof.
  unfold upload_file.
  pose proof (upload_loop_counters ex retries 0 (UploadRun (Return None) 0 0 0)
                eq_refl) as H. cbn zeta in H. simpl posts in H.
  simpl accepted in H. simpl sleeps in H.
  destruct H as (H0 & H1 & H2 & H3 & H4 & _). repeat split; (exact H0 || lia).
Qed.

Lemma upload_loop_missing_file n : ∀ a r,
  a + n = retries →
  outcome (upload_loop gw false retries (seq a n) r) = Return None
  ∧ sleeps (upload_loop gw false retries (seq a n) r) = sleeps r + (n - 1).
Proof.
  induction n as [|n IH]; intros a r Ha; cbn [seq upload_loop].
  - simpl. split; [reflexivity|lia].
  - unfold attempt_once, on_exception. cbn [negb].
    destruct (Nat.eqb_spec a (retries - 1)) as [He|He].
    + simpl. split; [reflexivity|lia].
    + destruct (IH (S a) (count_sleep r) ltac:(lia)) as [I1 I2].
      rewrite I1, I2. simpl. split; [reflexivity|lia].
Qed.

(** X2. When the file to upload is not there, [upload_file] posts nothing and
    returns [None], after sleeping before each retry. *)
Theorem upload_file_missing_file :
  outcome (upload_file gw false retries) = Return None
  ∧ posts (upload_file gw false retries) = 0
  ∧ sleeps (upload_file gw false retries) = retries - 1.
Proof.
  unfold upload_file.
  destruct (upload_loop_missing_file retries 0 (UploadRun (Return None) 0 0 0)
              eq_refl) as [H1 H2].
  pose proof (upload_loop_counters false retries 0 (UploadRun (Return None) 0 0 0)
                eq_refl) as H. cbn zeta in H.
  destruct H as (_ & _ & _ & _ & _ & H5).
  split; [exact H1|]. split; [by apply H5|exact H2].
Qed.

(** An attempt that is retried and is not the last one continues. *)
Lemma attempt_once_retried a r :
  retried (gw a) → a ≠ retries - 1 →
  ∃ r', attempt_once gw true retries a r = (FlowContinue, r')
        ∧ posts r' = S (posts r).
Proof.
  intros Hr Hne. apply Nat.eqb_neq in Hne.
  unfold attempt_once, on_exception, on_response. cbn [negb].
  destruct (gw a) as [e|sc b]; simpl in Hr.
  - rewrite Hne. eauto.
  - destruct (Z.eqb_spec sc 200) as [->|Hsc]; cbn [negb].
    + destruct Hr as [Hr| ->]; [contradiction|]. rewrite Hne. eauto.
    + rewrite Hne. eauto.
Qed.

(** A last attempt that is retried gives up. *)
Lemma attempt_once_retried_last r :
  retried (gw (retries - 1)) →
  ∃ r', attempt_once gw true retries (retries - 1) r = (FlowReturn None, r')
        ∧ posts r' = S (posts r).
Proof.
  intros Hr.
  unfold attempt_once, on_exception, on_response. cbn [negb].
  rewrite Nat.eqb_refl.
  destruct (gw (retries - 1)) as [e|sc b]; simpl in Hr; [eauto|].
  destruct (Z.eqb_spec sc 200) as [->|Hsc]; cbn [negb]; [|eauto].
  destruct Hr as [Hr| ->]; [contradiction|]. eauto.
Qed.

Lemma upload_loop_answer k v n : ∀ a r,
  a + n = retries → a ≤ k < a + n →
  (∀ j, a ≤ j < k → retried (gw j)) →
  gw k = Response 200 (BodyObject v) →
  outcome (upload_loop gw true retries (seq a n) r) = Return v
  ∧ posts (upload_loop gw true retries (seq a n) r) = posts r + (k - a) + 1.
Proof.
  induction n as [|n IH]; intros a r Ha Hk Hbefore Hgw; [lia|].
  cbn [seq upload_loop].
  destruct (Nat.eq_dec a k) as [->|Hne].
  - unfold attempt_once. cbn [negb]. rewrite Hgw. simpl. split; [reflexivity|lia].
  - destruct (attempt_once_retried a r) as (r' & E & Hp);
      [apply Hbefore; lia|lia|].
    rewrite E.
    destruct (IH (S a) r' ltac:(lia) ltac:(lia)) as [I1 I2]; [|exact Hgw|].
    { intros j Hj. apply Hbefore. lia. }
    rewrite I1, I2, Hp. split; [reflexivity|lia].
Qed.

(** X3. [upload_file] returns at the first status 200 whose body is a JSON
    object: when the attempts before attempt [k] are all retried and the post
    of attempt [k < retries] is answered 200 with an object, the call returns
    the object's id member after exactly [k + 1] posts, and [None], at once
    and without a retry, when the object has no id. *)
Theorem upload_file_first_answer (k : nat) (v : option string) :
  k < retries →
  (∀ j, j < k → retried (gw j)) →
  gw k = Response 200 (BodyObject v) →
  outcome (upload_file gw true retries) = Return v
  ∧ posts (upload_file gw true retries) = k + 1.
Proof.
  intros Hk Hbefore Hgw. unfold upload_file.
  destruct (upload_loop_answer k v retries 0 (UploadRun (Return None) 0 0 0)
              eq_refl ltac:(lia)) as [H1 H2]; [|exact Hgw|].
  { intros j Hj. apply Hbefore. lia. }
  rewrite H1, H2. simpl. split; [reflexivity|lia].
Qed.

Lemma upload_loop_gives_up n : ∀ a r,
  a + n = retries →
  (∀ j, a ≤ j < a + n → retried (gw j)) →
  outcome (upload_loop gw true retries (seq a n) r) = Return None
  ∧ posts (upload_loop gw true retries (seq a n) r) = posts r + n.
Proof.
  induction n as [|n IH]; intros a r Ha Hall; cbn [seq upload_loop].
  - simpl. split; [reflexivity|lia].
  - destruct (Nat.eq_dec a (retries - 1)) as [->|Hne].
    + destruct (attempt_once_retried_last r) as (r' & E & Hp); [apply Hall; lia|].
      rewrite E. simpl. split; [reflexivity|lia].
    + destruct (attempt_once_retried a r) as (r' & E & Hp); [apply Hall; lia|exact Hne|].
      rewrite E.
      destruct (IH (S a) r' ltac:(lia)) as [I1 I2].
      { intros j Hj. apply Hall. lia. }
      rewrite I1, I2, Hp. split; [reflexivity|lia].
Qed.

(** X4. When every attempt is retried (the post raises, the status is not
    200, or the body of a 200 cannot be read), [upload_file] returns [None]
    after exactly [retries] posts. *)
Theorem upload_file_gives_up :
  (∀ j, j < retries → retried (gw j)) →
  outcome (upload_file gw true retries) = Return None
  ∧ posts (upload_file gw true retries) = retries.
Proof.
  intros Hall. unfold upload_file.
  destruct (upload_loop_gives_up retries 0 (UploadRun (Return None) 0 0 0) eq_refl)
    as [H1 H2].
  { intros j Hj. apply Hall. lia. }
  rewrite H1, H2. split; reflexivity.
Qed.

Lemma upload_loop_sound ex id n : ∀ a r,
  outcome (upload_loop gw ex retries (seq a n) r) = Return (Some id) →
  ex = true
  ∧ accepted r < accepted (upload_loop gw ex retries (seq a n) r)
  ∧ ∃ k, a ≤ k < a + n ∧ gw k = Response 200 (BodyObject (Some id)).
Proof.
  induction n as [|n IH]; intros a r; cbn [seq upload_loop]; [discriminate|].
  pose proof (attempt_once_counters ex a r) as Hc. cbn zeta in Hc.
  destruct (attempt_once gw ex retries a r) as [[v|] r'] eqn:E; cbn [snd] in Hc.
  - simpl. intros [= ->].
    unfold attempt_once, on_exception, on_response in E.
    destruct ex; cbn [negb] in E;
      [|destruct (a =? retries - 1); discriminate].
    destruct (gw a) as [e|sc b] eqn:Eg;
      [destruct (a =? retries - 1); discriminate|].
    destruct (Z.eqb_spec sc 200) as [->|Hsc]; cbn [negb] in E;
      [|destruct (a =? retries - 1); discriminate].
    destruct b as [|id'];
      [destruct (a =? retries - 1); discriminate|].
    injection E as -> <-. split; [reflexivity|]. split; [simpl; lia|].
    exists a. split; [lia|exact Eg].
  - intros H. destruct (IH (S a) r' H) as (He & Ha & k & Hk & Hg).
    split; [exact He|]. split; [lia|]. exists k. split; [lia|exact Hg].
Qed.

Lemma upload_file_accepted (ex : bool) (id : string) :
  outcome (upload_file gw ex retries) = Return (Some id) →
  1 ≤ accepted (upload_file gw ex retries).
Proof.
  unfold upload_file. intros H.
  destruct (upload_loop_sound ex id retries 0 _ H) as (_ & Ha & _).
  simpl in Ha. lia.
Qed.

(** X5. A document id returned by [upload_file] comes from the gateway: the
    file was there, and some attempt below [retries] was answered 200 with
    that id (so at least one post was accepted). *)
Theorem upload_file_sound (ex : bool) (id : string) :
  outcome (upload_file gw ex retries) = Return (Some id) →
  ex = true
  ∧ 1 ≤ accepted (upload_file gw ex retries)
  ∧ ∃ k, k < retries ∧ gw k = Response 200 (BodyObject (Some id)).
Proof.
  unfold upload_file. intros H.
  destruct (upload_loop_sound ex id retries 0 _ H) as (He & Ha & k & Hk & Hg).
  split; [exact He|]. split; [simpl in Ha; lia|]. exists k. split; [lia|exact Hg].
Qed.

End UploadMore.

Lemma upload_file_first_answer_witness :
  DifyClient.outcome (DifyClient.upload_file Scenario.flaky_gateway true 5)
  = Return (Some "doc-1")
  ∧ DifyClient.posts (DifyClient.upload_file Scenario.flaky_gateway true 5) = 2 + 1.
Proof.
  apply (upload_file_first_answer Scenario.flaky_gateway 5 2 (Some "doc-1")).
  - lia.
  - intros [|[|j]] Hj; simpl; [exact I|exact I|lia].
  - reflexivity.
Defined.

Lemma upload_file_gives_up_witness :
  DifyClient.outcome (DifyClient.upload_file Scenario.gateway_down true 4)
  = Return None
  ∧ DifyClient.posts (DifyClient.upload_file Scenario.gateway_down true 4) = 4.
Proof.
  apply (upload_file_gives_up Scenario.gateway_down 4).
  intros j Hj. simpl. left. discriminate.
Defined.

Lemma upload_file_sound_witness :
  ∃ k, k < 3 ∧ Scenario.gateway_up k
               = DifyClient.Response 200 (DifyClient.BodyObject (Some "doc-1")).
Proof.
  apply (upload_file_sound Scenario.gateway_up 3 true "doc-1"). reflexivity.
Defined.

(** ** More about [Pipeline.process_file] *)

Section PipelineMore.
Import Config Database GoogleDrive DifyClient Pipeline Idempotence.
Context (settings : Settings).

Lemma try_body_processing_files env file_id file_name w :
  processing_files (try_body settings env file_id file_name w).1
  = processing_files w
  ∨ processing_files (try_body settings env file_id file_name w).1
    = {[file_id]} ∪ processing_files w.
Proof.
  unfold try_body.
  destruct (decide _); [by left|]. right.
  destruct (query_raises env); [reflexivity|].
  destruct (first_processed _ _); [reflexivity|].
  destruct (download env); cbn [download_file negb fst]; try reflexivity.
  destruct (outcome _) as [v|e]; [|reflexivity].
  match goal with
  | |- context [after_upload ?e ?f ?n ?v ?u] =>
      destruct (after_upload_frame e f n v u) as [-> _]
  end.
  reflexivity.
Qed.

(** X6. A run touches the in-flight set at its own file id only: whatever
    happens, the set it leaves is the set it found without that id. *)
Theorem process_file_in_flight_frame env file_id file_name w :
  processing_files (process_file settings env file_id file_name w)
  = processing_files w ∖ {[file_id]}.
Proof.
  unfold process_file. rewrite finish_run_processing_files.
  destruct (try_body_processing_files env file_id file_name w) as [-> | ->];
    [reflexivity|].
  apply set_eq. intros x.
  rewrite !elem_of_difference, elem_of_union, elem_of_singleton. tauto.
Qed.

(** X7. The table of processed files is append-only, and a file is never
    recorded without an accepted upload: a run leaves the table as it was, or
    appends the row of its own file, and then the file was not in flight and
    had no row, the download completed, the store took the commit and Dify
    accepted a post of this run. *)
Theorem process_file_records env file_id file_name w :
  processed_files (process_file settings env file_id file_name w)
  = processed_files w
  ∨ (processed_files (process_file settings env file_id file_name w)
     = (processed_files w
        ++ [{| pf_file_id := file_id; pf_file_name := file_name;
               pf_processed_at := utcnow env |}])%list
     ∧ (file_id ∉ processing_files w)
     ∧ first_processed file_id (processed_files w) = None
     ∧ download env = DownloadCompletes
     ∧ store_ok env = true
     ∧ dify_accepted w
       < dify_accepted (process_file settings env file_id file_name w)).
Proof.
  unfold process_file.
  rewrite finish_run_processed_files, finish_run_accepted.
  unfold try_body.
  destruct (decide _) as [Hin|Hin]; [by left|].
  destruct (query_raises env); [by left|].
  cbn [processed_files with_processing_files].
  destruct (first_processed file_id (processed_files w)) eqn:Hrow; [by left|].
  destruct (download env) eqn:Hd; cbn [download_file negb]; [by left|by left|].
  destruct (outcome _) as [v|e] eqn:Ev; [|by left].
  unfold after_upload.
  destruct v as [id|]; [|by left].
  destruct (truthy (Some id)); cbn [negb]; [|by left].
  unfold insert_processed. cbn [pf_file_id processed_files with_dify
    with_temp_files with_processing_files].
  rewrite Hrow.
  destruct (store_ok env); [|by left].
  right. cbn [fst processed_files with_processed_files dify_accepted with_dify
    with_temp_files with_processing_files].
  repeat split; try done.
  apply upload_file_accepted in Ev. lia.
Qed.


(** X9. When the download fails, nothing is posted to Dify and nothing is
    recorded; what the download left at the temporary path is deleted unless
    the deletion fails. *)
Theorem process_file_download_fails env file_id file_name w :
  download env ≠ DownloadCompletes →
  processed_files (process_file settings env file_id file_name w)
  = processed_files w
  ∧ dify_posts (process_file settings env file_id file_name w) = dify_posts w
  ∧ (unlink_ok env = true →
     temp_files (process_file settings env file_id file_name w)
       !! temp_path settings file_name = None).
Proof.
  intros Hd. split; [|split; [|apply process_file_temp_file]].
  - unfold process_file. rewrite finish_run_processed_files. unfold try_body.
    destruct (decide _); [reflexivity|].
    destruct (query_raises env); [reflexivity|].
    destruct (first_processed _ _); [reflexivity|].
    destruct (download env); cbn [download_file negb]; try reflexivity.
    contradiction.
  - unfold process_file. rewrite finish_run_posts. unfold try_body.
    destruct (decide _); [reflexivity|].
    destruct (query_raises env); [reflexivity|].
    destruct (first_processed _ _); [reflexivity|].
    destruct (download env); cbn [download_file negb]; try reflexivity.
    contradiction.
Qed.

Lemma segments_unique env file_id file_name fuel : ∀ p w,
  unique_rows (processed_files w) →
  unique_rows (processed_files (segments settings env file_id file_name fuel p w).2).
Proof.
  induction fuel as [|fuel IH]; intros p w Hu; [exact Hu|].
  cbn [segments].
  pose proof (step_unique settings env file_id file_name p w Hu) as Hs.
  destruct (step settings env file_id file_name p w) as [q u]. by apply IH.
Qed.

(** X10. A run keeps every file id at one row at most, whatever the outside
    world does. *)
Theorem process_file_unique env file_id file_name w :
  unique_rows (processed_files w) →
  unique_rows (processed_files (process_file settings env file_id file_name w)).
Proof.
  intros Hu.
  pose proof (segments_unique env file_id file_name 11 Start w Hu) as H.
  by rewrite segments_process_file in H.
Qed.

(** X11. A failure is not sticky: whatever happened to a first run for a
    file, a later run for which Drive, Dify and the store work leaves the
    file with exactly one row. *)
Theorem process_file_retry envA envB file_id nameA nameB w :
  unique_rows (processed_files w) →
  works envB →
  rows_for file_id
    (processed_files
       (process_file settings envB file_id nameB
          (process_file settings envA file_id nameA w))) = 1.
Proof.
  intros Hu Hw.
  pose proof (segments_unique envA file_id nameA 11 Start w Hu file_id) as H1.
  rewrite segments_process_file in H1. cbn [snd] in H1.
  destruct (process_file_works settings envB file_id nameB
              (process_file settings envA file_id nameA w) Hw
              (process_file_not_in_flight settings envA file_id nameA w))
    as [H0 H1'].
  destruct (Nat.eq_dec (rows_for file_id
              (processed_files (process_file settings envA file_id nameA w))) 0)
    as [E|E].
  - by destruct (H0 E).
  - assert (E1 : rows_for file_id
              (processed_files (process_file settings envA file_id nameA w)) = 1)
      by lia.
    destruct (H1' E1) as (-> & _). exact E1.
Qed.

(** A path that starts with a separator has a root. *)
Lemma parse_parts_root file_name :
  String.prefix "/" file_name = true →
  ∃ root parts, parse_parts file_name = (String "/" root, parts).
Proof.
  destruct file_name as [|c rest]; [discriminate|].
  cbn [String.prefix]. destruct (ascii_dec "/" c) as [<-|]; [|discriminate].
  intros _. unfold parse_parts, splitroot. cbn [lstrip].
  rewrite Ascii.eqb_refl. destruct (lstrip rest) as [[|[|n]] rel]; eauto.
Qed.

(** X12. A file name that starts with a slash takes the run out of the
    temporary directory: whatever [TEMP_DOWNLOAD_PATH] is, the path
    downloaded to, and deleted at the end, is the file name itself as pathlib
    prints it, an absolute path. *)
Theorem process_file_absolute_name env file_id file_name w :
  String.prefix "/" file_name = true →
  temp_path settings file_name = path_str file_name
  ∧ String.prefix "/" (temp_path settings file_name) = true
  ∧ (file_id ∉ processing_files w → query_raises env = false →
     first_processed file_id (processed_files w) = None →
     download env = DownloadCompletes →
     temp_files (segments settings env file_id file_name 2 Start w).2
       !! path_str file_name
     = Some (Complete file_id))
  ∧ (unlink_ok env = true →
     temp_files (process_file settings env file_id file_name w)
       !! path_str file_name = None).
Proof.
  intros Hp.
  destruct (parse_parts_root file_name Hp) as (root & parts & Hparse).
  assert (Hpath : temp_path settings file_name = path_str file_name).
  { unfold temp_path, path_div, path_str. rewrite Hparse. reflexivity. }
  split; [exact Hpath|]. split; [|split].
  - rewrite Hpath. unfold path_str. rewrite Hparse.
    unfold format_parsed_parts. simpl.
    destruct (ascii_dec "/" "/"); [|congruence].
    by destruct (String.append root _).
  - intros Hin Hq Hrow Hd.
    rewrite (segments_S _ _ _ _ 1). cbn [step].
    destruct (decide _); [contradiction|]. rewrite Hq. simpl processed_files.
    rewrite Hrow. rewrite (segments_S _ _ _ _ 0). cbn [step].
    rewrite Hd. cbn [download_file negb]. unfold begin_attempt. cbn [Nat.leb].
    rewrite exists_insert. cbn [negb segments snd]. simpl temp_files.
    rewrite Hpath. apply lookup_insert_eq.
  - intros Hu.
    pose proof (process_file_temp_file settings env file_id file_name w Hu) as H.
    by rewrite Hpath in H.
Qed.

End PipelineMore.


Lemma process_file_download_fails_witness :
  Pipeline.processed_files
    (Pipeline.process_file Config.default Scenario.drive_down "f1" "report.pdf"
       Scenario.idle) = []
  ∧ Pipeline.dify_posts
      (Pipeline.process_file Config.default Scenario.drive_down "f1" "report.pdf"
         Scenario.idle) = 0.
Proof.
  assert (Hd : Pipeline.download Scenario.drive_down ≠ GoogleDrive.DownloadCompletes)
    by discriminate.
  destruct (process_file_download_fails Config.default Scenario.drive_down
              "f1" "report.pdf" Scenario.idle Hd) as (H1 & H2 & _).
  split; assumption.
Defined.

Lemma process_file_unique_witness :
  Database.rows_for "f1"
    (Pipeline.processed_files
       (Pipeline.process_file Config.default Scenario.healthy "f1" "report.pdf"
          Scenario.idle)) ≤ 1.
Proof.
  assert (Hu : Idempotence.unique_rows (Pipeline.processed_files Scenario.idle))
    by (intros g; unfold Database.rows_for; simpl; lia).
  apply (process_file_unique Config.default Scenario.healthy "f1" "report.pdf"
           Scenario.idle Hu "f1").
Defined.

Lemma process_file_retry_witness :
  Database.rows_for "f1"
    (Pipeline.processed_files
       (Pipeline.process_file Config.default Scenario.healthy "f1" "report.pdf"
          (Pipeline.process_file Config.default Scenario.drive_down "f1"
             "report.pdf" Scenario.idle))) = 1.
Proof.
  assert (Hu : Idempotence.unique_rows (Pipeline.processed_files Scenario.idle))
    by (intros g; unfold Database.rows_for; simpl; lia).
  assert (Hw : Idempotence.works Scenario.healthy)
    by (repeat split; exists "doc-1"; split; reflexivity).
  apply (process_file_retry Config.default Scenario.drive_down Scenario.healthy
           "f1" "report.pdf" "report.pdf" Scenario.idle Hu Hw).
Defined.

Lemma process_file_absolute_name_witness :
  Pipeline.temp_path Config.default "/srv/./app.db" = "/srv/app.db".
Proof.
  destruct (process_file_absolute_name Config.default Scenario.healthy
              "f1" "/srv/./app.db" Scenario.idle eq_refl) as (H & _).
  exact H.
Defined.

(** ** Any number of runs on one event loop *)

Section EventLoopFacts.
Import Config Database GoogleDrive DifyClient Pipeline Idempotence EventLoop.
Context (settings : Settings).

Section OneSegment.
Context (env : Env) (file_id file_name : string).
Local Abbreviation accounted := (EventLoop.accounted env file_id file_name).

Lemma upload_returned_accounted p v w :
  (if truthy v then 1 else 0) ≤ credit p →
  accounted p w (upload_returned settings env file_id file_name v w).
Proof.
  intros Hc. unfold EventLoop.accounted, upload_returned. cbn [fst snd credit].
  rewrite finish_run_processed_files, finish_run_accepted.
  unfold after_upload.
  destruct (truthy v); cbn [negb fst]; [|split; [by left|lia]].
  destruct (insert_processed _ _ _) as [rows'|e] eqn:E; cbn [fst];
    [|split; [by left|lia]].
  unfold insert_processed in E. cbn [pf_file_id] in E.
  destruct (first_processed _ _); [discriminate|].
  destruct (store_ok env); [|discriminate]. injection E as <-.
  cbn [processed_files with_processed_files dify_accepted].
  split; [by right|]. rewrite length_app. simpl. lia.
Qed.

Lemma attempt_raised_accounted p attempt w :
  accounted p w (attempt_raised settings env file_id file_name attempt w).
Proof.
  unfold attempt_raised, on_exception.
  destruct (attempt =? 3 - 1).
  - apply upload_returned_accounted. simpl. lia.
  - unfold EventLoop.accounted. simpl. split; [by left|lia].
Qed.

Lemma begin_attempt_accounted p attempt w :
  accounted p w (begin_attempt settings env file_id file_name attempt w).
Proof.
  unfold begin_attempt.
  destruct (3 <=? attempt); [apply upload_returned_accounted; simpl; lia|].
  destruct (negb _); unfold EventLoop.accounted; simpl; (split; [by left|lia]).
Qed.

Lemma step_accounted p w :
  accounted p w (step settings env file_id file_name p w).
Proof.
  destruct p as [| |attempt|attempt leaving|attempt|]; cbn [step].
  - destruct (decide _);
      [unfold EventLoop.accounted; cbn [fst snd credit];
       rewrite finish_run_processed_files, finish_run_accepted;
       split; [by left|simpl; lia]|].
    destruct (query_raises env);
      [unfold EventLoop.accounted; cbn [fst snd credit];
       rewrite finish_run_processed_files, finish_run_accepted;
       split; [by left|simpl; lia]|].
    destruct (first_processed _ _); unfold EventLoop.accounted; cbn [fst snd credit];
      rewrite ?finish_run_processed_files, ?finish_run_accepted;
      (split; [by left|simpl; lia]).
  - destruct (download env); cbn [download_file negb];
      try (unfold EventLoop.accounted; cbn [fst snd credit];
           rewrite finish_run_processed_files, finish_run_accepted;
           split; [by left|simpl; lia]).
    pose proof (begin_attempt_accounted Sleeping 0
                  (with_temp_files
                     (<[temp_path settings file_name := Complete file_id]>
                        (temp_files w)) w)) as H.
    exact H.
  - unfold resume_post. destruct (dify env attempt) as [e|sc b].
    + unfold EventLoop.accounted. simpl. split; [by left|lia].
    + unfold EventLoop.accounted, on_response. cbn [fst snd].
      destruct (sc =? 200)%Z; cbn [negb].
      * split; [by left|]. destruct b as [|[id|]]; simpl;
          try destruct (negb (String.eqb id "")); lia.
      * split; [by left|]. destruct (attempt =? 3 - 1); simpl; lia.
  - unfold resume_closing. destruct leaving as [[v|]|e].
    + apply upload_returned_accounted. reflexivity.
    + apply begin_attempt_accounted.
    + apply attempt_raised_accounted.
  - apply begin_attempt_accounted.
  - unfold EventLoop.accounted. simpl. split; [by left|lia].
Qed.

End OneSegment.

Lemma credits_insert i t t' : ∀ tasks,
  tasks !! i = Some t →
  credits (<[i := t']> tasks) + credit (task_pc t)
  = credits tasks + credit (task_pc t').
Proof.
  unfold credits. revert i.
  induction i as [|i IH]; intros [|t0 tasks] H; try discriminate.
  - injection H as ->.
    change (<[0 := t']> (t :: tasks)) with (t' :: tasks). rewrite !fmap_cons.
    cbn [sum_list_with].
    repeat match goal with |- context [id ?a] => change (id a) with a end. lia.
  - simpl in H. specialize (IH tasks H).
    change (<[S i := t']> (t0 :: tasks)) with (t0 :: <[i := t']> tasks).
    rewrite !fmap_cons. cbn [sum_list_with].
    repeat match goal with |- context [id ?a] => change (id a) with a end. lia.
Qed.

Lemma identity_insert i t t' (tasks : list Task) :
  tasks !! i = Some t → identity t' = identity t →
  identity <$> <[i := t']> tasks = identity <$> tasks.
Proof.
  intros H He. rewrite list_fmap_insert, He. apply list_insert_id.
  by rewrite list_lookup_fmap, H.
Qed.

(** Every schedule of every list of runs, whatever the outside world does to
    each of them. *)
Lemma run_many_invariant : ∀ schedule tasks w,
  identity <$> (run_many settings schedule tasks w).1 = identity <$> tasks
  ∧ (unique_rows (processed_files w) →
     unique_rows (processed_files (run_many settings schedule tasks w).2))
  ∧ processed_files w `prefix_of` processed_files (run_many settings schedule tasks w).2
  ∧ (∀ row, row ∈ processed_files (run_many settings schedule tasks w).2 →
       row ∈ processed_files w
       ∨ ∃ e f n, (e, f, n) ∈ identity <$> tasks
                  ∧ row = {| pf_file_id := f; pf_file_name := n;
                             pf_processed_at := utcnow e |})
  ∧ length (processed_files (run_many settings schedule tasks w).2)
    + credits (run_many settings schedule tasks w).1 + dify_accepted w
    ≤ length (processed_files w) + credits tasks
      + dify_accepted (run_many settings schedule tasks w).2.
Proof.
  induction schedule as [|i rest IH]; intros tasks w; cbn [run_many].
  - cbn [fst snd]. split; [reflexivity|]. split; [done|]. split; [done|].
    split; [by left|lia].
  - destruct (tasks !! i) as [t|] eqn:Ht; [|apply IH].
    unfold step_task.
    pose proof (step_accounted (task_env t) (task_file_id t) (task_file_name t)
                  (task_pc t) w) as [Hrows Hacc].
    pose proof (step_unique settings (task_env t) (task_file_id t)
                  (task_file_name t) (task_pc t) w) as Hun.
    destruct (step settings (task_env t) (task_file_id t) (task_file_name t)
                (task_pc t) w) as [p' w']. cbn [fst snd] in Hrows, Hacc, Hun.
    set (t' := {| task_env := task_env t; task_file_id := task_file_id t;
                  task_file_name := task_file_name t; task_pc := p' |}).
    assert (Hid : identity <$> <[i := t']> tasks = identity <$> tasks)
      by (by apply (identity_insert i t)).
    pose proof (credits_insert i t t' tasks Ht) as Hcr. cbn [t' task_pc] in Hcr.
    destruct (IH (<[i := t']> tasks) w') as (I1 & I2 & I3 & I4 & I5).
    rewrite Hid in I1, I4.
    split; [exact I1|]. split; [auto|]. split; [|split].
    + etrans; [|exact I3].
      destruct Hrows as [-> | ->]; [done|by apply prefix_app_r].
    + intros row Hrow. destruct (I4 row Hrow) as [Hin|Hin]; [|by right].
      destruct Hrows as [Hr|Hr]; rewrite Hr in Hin; [by left|].
      apply elem_of_app in Hin as [Hin|Hin]; [by left|].
      apply list_elem_of_singleton in Hin. right.
      exists (task_env t), (task_file_id t), (task_file_name t).
      split; [|exact Hin].
      apply list_elem_of_fmap. exists t. split; [reflexivity|].
      by apply list_elem_of_lookup_2 in Ht.
    + lia.
Qed.

Lemma credits_dispatched tasks : dispatched tasks → credits tasks = 0.
Proof.
  unfold credits. induction 1 as [|t ts Ht _ IHd]; [reflexivity|].
  rewrite fmap_cons. cbn [sum_list_with]. rewrite IHd, Ht. reflexivity.
Qed.

(** X13. Any number of runs, for any files, interleaved in any order at their
    awaits, whatever Drive, Dify, the store and the file system do: the table
    of processed files only grows by rows of the dispatched runs, every file
    id keeps one row at most, and no more rows are added than Dify accepted
    posts. *)
Theorem run_many_records (schedule : list nat) (tasks : list Task) (w : World) :
  dispatched tasks →
  unique_rows (processed_files w) →
  unique_rows (processed_files (run_many settings schedule tasks w).2)
  ∧ processed_files w `prefix_of` processed_files (run_many settings schedule tasks w).2
  ∧ (∀ row, row ∈ processed_files (run_many settings schedule tasks w).2 →
       row ∈ processed_files w ∨ ∃ t, t ∈ tasks ∧ row = row_of t)
  ∧ length (processed_files (run_many settings schedule tasks w).2)
    + dify_accepted w
    ≤ length (processed_files w)
      + dify_accepted (run_many settings schedule tasks w).2.
Proof.
  intros Hd Hu.
  destruct (run_many_invariant schedule tasks w) as (_ & I2 & I3 & I4 & I5).
  split; [auto|]. split; [exact I3|]. split.
  - intros row Hrow. destruct (I4 row Hrow) as [Hin|(e & f & n & Hin & ->)];
      [by left|right].
    apply list_elem_of_fmap in Hin as (t & Ht & Hin).
    exists t. split; [exact Hin|]. unfold identity in Ht. injection Ht as -> -> ->.
    reflexivity.
  - pose proof (credits_dispatched tasks Hd) as Hc. lia.
Qed.

End EventLoopFacts.

Lemma run_many_records_witness :
  length (Pipeline.processed_files
            (EventLoop.run_many Config.default [0; 1; 1; 0; 1; 0; 0; 1; 1; 0]
               Cases.two_runs Scenario.idle).2)
  + Pipeline.dify_accepted Scenario.idle
  ≤ length (Pipeline.processed_files Scenario.idle)
    + Pipeline.dify_accepted
        (EventLoop.run_many Config.default [0; 1; 1; 0; 1; 0; 0; 1; 1; 0]
           Cases.two_runs Scenario.idle).2.
Proof.
  assert (Hd : EventLoop.dispatched Cases.two_runs)
    by (repeat constructor).
  assert (Hu : Idempotence.unique_rows (Pipeline.processed_files Scenario.idle))
    by (intros g; unfold Database.rows_for; simpl; lia).
  destruct (run_many_records Config.default [0; 1; 1; 0; 1; 0; 0; 1; 1; 0]
              Cases.two_runs Scenario.idle Hd Hu) as (_ & _ & _ & H).
  exact H.
Defined.

(** ** More about [Webhook.drive_webhook] *)

Section WebhookMore.
Import Database GoogleDrive Webhook Service.

(** X14. A call of the webhook either lists nothing, dispatches nothing and
    leaves the debounce table as it was, or makes exactly one listing call,
    for the folder of the channel it names, having recorded the time of the
    call for that folder and for no other; the latter only when the debounce
    interval has elapsed. *)
Theorem drive_webhook_effects (env : Env) (st : State)
    (x_goog_channel_id x_goog_resource_state : option string) (now : Q) :
  (listing_calls
     (drive_webhook env st x_goog_channel_id x_goog_resource_state now) = []
   ∧ background_tasks
       (drive_webhook env st x_goog_channel_id x_goog_resource_state now) = []
   ∧ last_check_time
       (drive_webhook env st x_goog_channel_id x_goog_resource_state now)
     = LAST_CHECK_TIME st)
  ∨ (∃ channel_id folder_id,
       x_goog_channel_id = Some channel_id
       ∧ first_channel channel_id (notification_channels st) = Some folder_id
       ∧ listing_calls
           (drive_webhook env st x_goog_channel_id x_goog_resource_state now)
         = [folder_id]
       ∧ last_check_time
           (drive_webhook env st x_goog_channel_id x_goog_resource_state now)
         = <[folder_id := now]> (LAST_CHECK_TIME st)
       ∧ (DEBOUNCE_INTERVAL
          <= now - default 0 (LAST_CHECK_TIME st !! folder_id))%Q).
Proof.
  unfold drive_webhook.
  destruct x_goog_channel_id as [c|], x_goog_resource_state as [r|];
    try (left; repeat split; fail).
  destruct (negb (truthy (Some c)) || negb (truthy (Some r)));
    [left; repeat split|].
  destruct (String.eqb r "sync"); [left; repeat split|].
  destruct (String.eqb r "trash"); [left; repeat split|].
  destruct (channel_query_raises env); [left; repeat split|].
  destruct (first_channel c (notification_channels st)) as [folder_id|] eqn:Hc;
    [|left; repeat split].
  pose proof (debounce_passes (LAST_CHECK_TIME st) folder_id now) as Hp.
  pose proof (debounce_table (LAST_CHECK_TIME st) folder_id now) as Ht.
  destruct (debounce (LAST_CHECK_TIME st) folder_id now) as [[] table];
    cbn [fst snd] in Hp, Ht; [|left; repeat split].
  right. exists c, folder_id. subst table.
  assert (Hq : (DEBOUNCE_INTERVAL
                <= now - default 0 (LAST_CHECK_TIME st !! folder_id))%Q)
    by (by apply Hp).
  destruct (list_new_files env folder_id) as [files|e]; [|repeat split; done].
  destruct (processed_query_raises env); [repeat split; done|].
  destruct (add_tasks _ _ _ _) as [[[]|e] tasks]; repeat split; done.
Qed.

(** What the dispatch loop adds: the first files of the list, in order, all
    of them unless [add_task] raises. *)
Lemma add_tasks_prefix raises_at : ∀ files k tasks,
  ∃ n, (add_tasks raises_at k files tasks).2
       = (tasks ++ ((λ f, (df_id f, df_name f)) <$> take n files))%list
       ∧ (raises (add_tasks raises_at k files tasks).1 = false → n = length files).
Proof.
  induction files as [|file files IH]; intros k tasks; cbn [add_tasks].
  - exists 0. split; [by rewrite app_nil_r|reflexivity].
  - destruct (raises_at k).
    + exists 0. split; [by rewrite app_nil_r|discriminate].
    + destruct (IH (S k) (tasks ++ [(df_id file, df_name file)])%list)
        as (n & Hn & Hall).
      exists (S n). split.
      * rewrite Hn. cbn [take fmap list_fmap]. by rewrite <- app_assoc.
      * intros H. rewrite (Hall H). reflexivity.
Qed.

(** X15. The webhook never dispatches a file that has its row in the table of
    processed files: every run it dispatches is for a file of the listing it
    has just made, absent from the table. *)
Theorem drive_webhook_dispatches (env : Env) (st : State)
    (x_goog_channel_id x_goog_resource_state : option string) (now : Q)
    (file_id file_name : string) :
  (file_id, file_name)
    ∈ background_tasks
        (drive_webhook env st x_goog_channel_id x_goog_resource_state now) →
  (file_id ∉ pf_file_id <$> processed st)
  ∧ ∃ folder_id files file,
      listing_calls
        (drive_webhook env st x_goog_channel_id x_goog_resource_state now)
      = [folder_id]
      ∧ list_new_files env folder_id = Return files
      ∧ file ∈ files ∧ df_id file = file_id ∧ df_name file = file_name.
Proof.
  unfold drive_webhook.
  destruct x_goog_channel_id as [c|], x_goog_resource_state as [r|];
    try (intros H; by apply elem_of_nil in H).
  destruct (negb (truthy (Some c)) || negb (truthy (Some r)));
    [intros H; by apply elem_of_nil in H|].
  destruct (String.eqb r "sync"); [intros H; by apply elem_of_nil in H|].
  destruct (String.eqb r "trash"); [intros H; by apply elem_of_nil in H|].
  destruct (channel_query_raises env); [intros H; by apply elem_of_nil in H|].
  destruct (first_channel c (notification_channels st)) as [folder_id|];
    [|intros H; by apply elem_of_nil in H].
  destruct (debounce (LAST_CHECK_TIME st) folder_id now) as [[] table];
    [|intros H; by apply elem_of_nil in H].
  destruct (list_new_files env folder_id) as [files|e] eqn:Hl;
    [|intros H; by apply elem_of_nil in H].
  destruct (processed_query_raises env); [intros H; by apply elem_of_nil in H|].
  match goal with
  | |- context [add_tasks ?ra ?k ?fs ?ts] =>
      destruct (add_tasks_prefix ra fs k ts) as (n & Hn & _);
      destruct (add_tasks ra k fs ts) as [res tasks] eqn:Ea
  end.
  cbn [snd] in Hn. rewrite app_nil_l in Hn.
  intros Hin.
  assert (Hin' : (file_id, file_name) ∈ tasks) by (destruct res as [[]|]; exact Hin).
  rewrite Hn in Hin'.
  apply list_elem_of_fmap in Hin' as (file & Hf & Hfile).
  injection Hf as -> ->.
  apply elem_of_take in Hfile as (i & Hfile & _).
  apply list_elem_of_lookup_2, list_elem_of_In, filter_In in Hfile as [Hfile Hnew].
  apply bool_decide_eq_true in Hnew.
  split.
  - intros Hp. apply Hnew. by apply elem_of_list_to_set.
  - exists folder_id, files, file.
    split; [by destruct res as [[]|]|]. split; [exact Hl|].
    split; [by apply list_elem_of_In|]. split; reflexivity.
Qed.

(** X16. When the webhook answers [processing], it has dispatched a run for
    every listed file that has no row, and the count it reports is the number
    of runs dispatched. *)
Theorem drive_webhook_processing (env : Env) (st : State)
    (x_goog_channel_id x_goog_resource_state : option string) (now : Q)
    (status_code : Z) (n : nat) :
  replied (drive_webhook env st x_goog_channel_id x_goog_resource_state now)
  = JSONResponse status_code "processing" (Some n) →
  n = length (background_tasks
                (drive_webhook env st x_goog_channel_id x_goog_resource_state now))
  ∧ ∃ folder_id files,
      listing_calls
        (drive_webhook env st x_goog_channel_id x_goog_resource_state now)
      = [folder_id]
      ∧ list_new_files env folder_id = Return files
      ∧ ∀ file, file ∈ files → df_id file ∉ pf_file_id <$> processed st →
          (df_id file, df_name file)
            ∈ background_tasks
                (drive_webhook env st x_goog_channel_id x_goog_resource_state now).
Proof.
  unfold drive_webhook.
  destruct x_goog_channel_id as [c|], x_goog_resource_state as [r|];
    try discriminate.
  destruct (negb (truthy (Some c)) || negb (truthy (Some r))); [discriminate|].
  destruct (String.eqb r "sync"); [discriminate|].
  destruct (String.eqb r "trash"); [discriminate|].
  destruct (channel_query_raises env); [discriminate|].
  destruct (first_channel c (notification_channels st)) as [folder_id|];
    [|discriminate].
  destruct (debounce (LAST_CHECK_TIME st) folder_id now) as [[] table];
    [|discriminate].
  destruct (list_new_files env folder_id) as [files|e] eqn:Hl; [|discriminate].
  destruct (processed_query_raises env); [discriminate|].
  match goal with
  | |- context [add_tasks ?ra ?k ?fs ?ts] =>
      destruct (add_tasks_prefix ra fs k ts) as (m & Hm & Hall);
      destruct (add_tasks ra k fs ts) as [res tasks] eqn:Ea
  end.
  cbn [fst snd] in Hm, Hall. rewrite app_nil_l in Hm.
  destruct res as [[]|e]; [|discriminate].
  cbn [replied listing_calls background_tasks]. intros [= _ <-].
  rewrite (Hall eq_refl), firstn_all in Hm. subst tasks.
  split; [by rewrite length_fmap|].
  exists folder_id, files. split; [reflexivity|]. split; [exact Hl|].
  intros file Hfile Hnew.
  apply list_elem_of_fmap. exists file. split; [reflexivity|].
  apply list_elem_of_In, filter_In. split; [by apply list_elem_of_In|].
  apply bool_decide_eq_true. intros Hp. apply Hnew.
  by apply elem_of_list_to_set in Hp.
Qed.

(** A call that has listed a folder has recorded its own time for it. *)
Lemma drive_webhook_listed (env : Env) (st : State)
    (x_goog_channel_id x_goog_resource_state : option string) (now : Q)
    (folder_id : string) :
  listing_calls
    (drive_webhook env st x_goog_channel_id x_goog_resource_state now)
  = [folder_id] →
  last_check_time
    (drive_webhook env st x_goog_channel_id x_goog_resource_state now)
  = <[folder_id := now]> (LAST_CHECK_TIME st).
Proof.
  unfold drive_webhook.
  destruct x_goog_channel_id as [c|], x_goog_resource_state as [r|];
    try discriminate.
  destruct (negb (truthy (Some c)) || negb (truthy (Some r))); [discriminate|].
  destruct (String.eqb r "sync"); [discriminate|].
  destruct (String.eqb r "trash"); [discriminate|].
  destruct (channel_query_raises env); [discriminate|].
  destruct (first_channel c (notification_channels st)) as [f|]; [|discriminate].
  pose proof (debounce_table (LAST_CHECK_TIME st) f now) as Ht.
  destruct (debounce (LAST_CHECK_TIME st) f now) as [[] table];
    cbn [fst snd] in Ht; [|discriminate].
  subst table.
  destruct (list_new_files env f) as [files|e]; [|by intros [= ->]].
  destruct (processed_query_raises env); [by intros [= ->]|].
  destruct (add_tasks _ _ _ _) as [[[]|e] tasks]; by intros [= ->].
Qed.

(** X17. Bursts are suppressed per folder: once a call has made a listing
    call for a folder at time [t1] (whether the listing succeeded or raised),
    a call at a time [t2] with [t2 - t1 < DEBOUNCE_INTERVAL] that names any
    channel of that folder lists nothing, dispatches nothing and leaves the
    recorded time alone. *)
Theorem drive_webhook_burst (env1 env2 : Env) (st : State)
    (c1 r1 r2 : option string) (channel_id folder_id : string) (t1 t2 : Q) :
  listing_calls (drive_webhook env1 st c1 r1 t1) = [folder_id] →
  first_channel channel_id (notification_channels st) = Some folder_id →
  (t2 - t1 < DEBOUNCE_INTERVAL)%Q →
  listing_calls
    (drive_webhook env2 (after st (drive_webhook env1 st c1 r1 t1))
       (Some channel_id) r2 t2) = []
  ∧ background_tasks
      (drive_webhook env2 (after st (drive_webhook env1 st c1 r1 t1))
         (Some channel_id) r2 t2) = []
  ∧ last_check_time
      (drive_webhook env2 (after st (drive_webhook env1 st c1 r1 t1))
         (Some channel_id) r2 t2)
    = last_check_time (drive_webhook env1 st c1 r1 t1).
Proof.
  intros Hlist Hc Hlt.
  pose proof (drive_webhook_listed env1 st c1 r1 t1 folder_id Hlist) as Ht.
  set (h1 := drive_webhook env1 st c1 r1 t1) in *.
  unfold drive_webhook. cbn [after LAST_CHECK_TIME notification_channels].
  destruct r2 as [r|]; [|repeat split].
  destruct (negb (truthy (Some channel_id)) || negb (truthy (Some r)));
    [repeat split|].
  destruct (String.eqb r "sync"); [repeat split|].
  destruct (String.eqb r "trash"); [repeat split|].
  destruct (channel_query_raises env2); [repeat split|].
  rewrite Hc.
  assert (Hd : (debounce (last_check_time h1) folder_id t2).1 = false).
  { apply not_true_iff_false. rewrite debounce_passes, Ht, lookup_insert_eq.
    simpl. intros Hge. apply (Qlt_not_le _ _ Hlt). exact Hge. }
  destruct (debounce (last_check_time h1) folder_id t2) as [[] table];
    [discriminate|repeat split].
Qed.

End WebhookMore.

Lemma drive_webhook_dispatches_witness :
  "f2" ∉ Database.pf_file_id <$> Webhook.processed Cases.watching_f1_processed.
Proof.
  assert (Hin : ("f2", "notes.txt")
                ∈ Webhook.background_tasks
                    (Webhook.drive_webhook Cases.two_new_files
                       Cases.watching_f1_processed
                       (Some "channel_F_1") (Some "change") 1000)).
  { apply list_elem_of_In. vm_compute. left. reflexivity. }
  destruct (drive_webhook_dispatches Cases.two_new_files Cases.watching_f1_processed
              (Some "channel_F_1") (Some "change") 1000 "f2" "notes.txt" Hin)
    as [H _].
  exact H.
Defined.

Lemma drive_webhook_processing_witness :
  1 = length (Webhook.background_tasks
                (Webhook.drive_webhook Cases.two_new_files
                   Cases.watching_f1_processed
                   (Some "channel_F_1") (Some "change") 1000)).
Proof.
  assert (Hr : Webhook.replied
                 (Webhook.drive_webhook Cases.two_new_files
                    Cases.watching_f1_processed
                    (Some "channel_F_1") (Some "change") 1000)
               = Webhook.JSONResponse 200 "processing" (Some 1))
    by (vm_compute; reflexivity).
  destruct (drive_webhook_processing Cases.two_new_files
              Cases.watching_f1_processed
              (Some "channel_F_1") (Some "change") 1000 200 1 Hr) as [H _].
  exact H.
Defined.

Lemma drive_webhook_burst_witness :
  Webhook.listing_calls
    (Webhook.drive_webhook Cases.two_new_files
       (Service.after Scenario.watching
          (Webhook.drive_webhook Scenario.listing_fails Scenario.watching
             (Some "channel_F_1") (Some "change") 1000))
       (Some "channel_F_1") (Some "change") 1002) = [].
Proof.
  assert (Hl : Webhook.listing_calls
                 (Webhook.drive_webhook Scenario.listing_fails Scenario.watching
                    (Some "channel_F_1") (Some "change") 1000) = ["F"])
    by (vm_compute; reflexivity).
  assert (Hlt : (1002 - 1000 < Webhook.DEBOUNCE_INTERVAL)%Q)
    by (vm_compute; reflexivity).
  destruct (drive_webhook_burst Scenario.listing_fails Cases.two_new_files
              Scenario.watching (Some "channel_F_1") (Some "change")
              (Some "change") "channel_F_1" "F" 1000 1002 Hl eq_refl Hlt)
    as [H _].
  exact H.
Defined.

(** ** More about [Setup.setup_monitoring] *)

Section SetupMore.
Import Database GoogleDrive Setup.

Lemma first_channel_app channel_id rows row :
  first_channel channel_id (rows ++ [row])%list
  = match first_channel channel_id rows with
    | Some folder_id => Some folder_id
    | None => if String.eqb (nc_channel_id row) channel_id
              then Some (nc_folder_id row) else None
    end.
Proof.
  unfold first_channel. induction rows as [|r rows IH]; cbn [app List.find].
  - destruct (String.eqb _ _); reflexivity.
  - destruct (String.eqb (nc_channel_id r) channel_id); [reflexivity|exact IH].
Qed.

Lemma first_channel_None channel_id rows :
  first_channel channel_id rows = None → channel_id ∉ nc_channel_id <$> rows.
Proof.
  unfold first_channel. induction rows as [|r rows IH]; cbn [List.find].
  - intros _ H. by apply elem_of_nil in H.
  - destruct (String.eqb_spec (nc_channel_id r) channel_id) as [He|He];
      [discriminate|].
    intros H. cbn [fmap list_fmap]. apply not_elem_of_cons. split; [congruence|].
    by apply IH.
Qed.

Lemma next_id_fresh rows : next_id rows ∉ nc_id <$> rows.
Proof.
  unfold next_id. intros Hin.
  assert (Hle : Forall (λ k, k ≤ list_max (nc_id <$> rows)) (nc_id <$> rows))
    by (by apply list_max_le).
  rewrite Forall_forall in Hle. apply Hle in Hin. lia.
Qed.

(** What a successful call has committed. *)
Lemma setup_monitoring_success env folder_id rows message channel rows' :
  setup_monitoring env folder_id rows = (Success message channel, rows') →
  rows' = (rows ++ [db_channel rows channel])%list
  ∧ ci_folder_id channel = folder_id
  ∧ first_channel (ci_channel_id channel) rows = None.
Proof.
  unfold setup_monitoring, try_body, setup_watch.
  destruct (service_ready env); [|discriminate]. cbn [negb].
  destruct (files_get (api env)) as [[]|e]; [|discriminate].
  destruct (files_watch (api env)) as [[id expiration]|e]; [|discriminate].
  unfold insert_channel. cbn [db_channel nc_channel_id ci_channel_id].
  destruct (first_channel id rows) eqn:Hf; [discriminate|].
  destruct (store_ok env); [|discriminate].
  intros [= _ <- <-]. split; [reflexivity|]. split; [reflexivity|exact Hf].
Qed.

(** X18. Round trip between the setup endpoint and the lookup of the webhook:
    after a successful call for a folder, the channel id that was returned
    resolves to that folder, and every other channel id resolves as it did
    before. *)
Theorem setup_monitoring_round_trip (env : Env) (folder_id : string)
    (rows rows' : list NotificationChannel) (message : string)
    (channel : channel_info) :
  setup_monitoring env folder_id rows = (Success message channel, rows') →
  first_channel (ci_channel_id channel) rows' = Some folder_id
  ∧ ∀ channel_id, channel_id ≠ ci_channel_id channel →
      first_channel channel_id rows' = first_channel channel_id rows.
Proof.
  intros H. apply setup_monitoring_success in H as (-> & Hfolder & Hnone).
  split.
  - rewrite first_channel_app, Hnone.
    cbn [db_channel nc_channel_id nc_folder_id].
    by rewrite String.eqb_refl, Hfolder.
  - intros channel_id Hne. rewrite first_channel_app.
    destruct (first_channel channel_id rows); [reflexivity|].
    cbn [db_channel nc_channel_id].
    destruct (String.eqb_spec (ci_channel_id channel) channel_id); congruence.
Qed.

(** X19. The endpoint keeps the keys of the table of channels: when no two
    rows share a primary key and no two rows share a channel id, the same
    holds of the table after the call, whatever its outcome. *)
Theorem setup_monitoring_keys (env : Env) (folder_id : string)
    (rows : list NotificationChannel) :
  NoDup (nc_id <$> rows) → NoDup (nc_channel_id <$> rows) →
  NoDup (nc_id <$> (setup_monitoring env folder_id rows).2)
  ∧ NoDup (nc_channel_id <$> (setup_monitoring env folder_id rows).2).
Proof.
  intros Hid Hch.
  destruct (setup_monitoring env folder_id rows) as [[message channel|code detail] rows']
    eqn:E.
  - apply setup_monitoring_success in E as (-> & _ & Hnone). cbn [snd].
    rewrite !fmap_app. cbn [fmap list_fmap db_channel nc_id nc_channel_id].
    split; apply NoDup_app; (split; [assumption|]);
      (split; [|apply NoDup_singleton]).
    + intros id Hin Hid'. apply list_elem_of_singleton in Hid' as ->.
      by apply next_id_fresh in Hin.
    + intros c Hin Hc. apply list_elem_of_singleton in Hc as ->.
      by apply first_channel_None in Hnone.
  - assert (rows' = rows) as ->; [|by split].
    revert E. unfold setup_monitoring.
    destruct (try_body env folder_id rows) as [[]|]; congruence.
Qed.

End SetupMore.

Lemma setup_monitoring_round_trip_witness :
  Database.first_channel "channel_G_1"
    (Setup.setup_monitoring Cases.registration_works "G"
       (Webhook.notification_channels Scenario.watching)).2 = Some "G".
Proof.
  destruct (setup_monitoring_round_trip Cases.registration_works "G"
              (Webhook.notification_channels Scenario.watching) _ _ _ eq_refl)
    as [H _].
  exact H.
Defined.

Lemma setup_monitoring_keys_witness :
  NoDup (Database.nc_channel_id
           <$> (Setup.setup_monitoring Cases.registration_works "G"
                  (Webhook.notification_channels Scenario.watching)).2).
Proof.
  assert (Hid : NoDup (Database.nc_id
                         <$> Webhook.notification_channels Scenario.watching))
    by (apply (bool_decide_unpack _); vm_compute; exact I).
  assert (Hch : NoDup (Database.nc_channel_id
                         <$> Webhook.notification_channels Scenario.watching))
    by (apply (bool_decide_unpack _); vm_compute; exact I).
  destruct (setup_monitoring_keys Cases.registration_works "G"
              (Webhook.notification_channels Scenario.watching) Hid Hch)
    as [_ H].
  exact H.
Defined.

(** ** More about [Scheduler.renew_channels] *)

Section SchedulerMore.
Import Database GoogleDrive Scheduler Service.

Lemma kept_or_renewed_id now row row' :
  kept_or_renewed now row row' →
  nc_id row' = nc_id row ∧ nc_folder_id row' = nc_folder_id row.
Proof. intros [->|(_ & new_channel & ->)]; by split. Qed.

Lemma Forall2_kept_ids now rows rows' :
  Forall2 (kept_or_renewed now) rows rows' →
  nc_id <$> rows' = nc_id <$> rows
  ∧ nc_folder_id <$> rows' = nc_folder_id <$> rows.
Proof.
  induction 1 as [|row row' rows rows' H _ [IH1 IH2]]; [by split|].
  apply kept_or_renewed_id in H as [H1 H2].
  cbn [fmap list_fmap]. split; f_equal; assumption.
Qed.

(** One committed update, seen from the table the run started from. *)
Lemma assigned_kept now rows0 channel new_channel : ∀ rows,
  NoDup (nc_id <$> rows0) → channel ∈ rows0 → expiring now channel →
  Forall2 (kept_or_renewed now) rows0 rows →
  Forall2 (kept_or_renewed now) rows0 (assigned (nc_id channel) new_channel rows).
Proof.
  intros rows Hnd Hin He H.
  assert (Hall : ∀ r, r ∈ rows0 → nc_id r = nc_id channel → r = channel).
  { intros r Hr Hid.
    pose proof (channel_by_id_unique rows0 r Hnd Hr) as H1.
    pose proof (channel_by_id_unique rows0 channel Hnd Hin) as H2.
    rewrite Hid in H1. congruence. }
  clear Hnd Hin. unfold assigned.
  induction H as [|r r' rows0 rows Hr H IH]; [constructor|].
  cbn [fmap list_fmap]. constructor.
  - destruct (Nat.eqb_spec (nc_id r') (nc_id channel)) as [Hid|Hid]; [|exact Hr].
    right. assert (r = channel) as ->.
    { apply Hall; [left|]. apply kept_or_renewed_id in Hr as [<- _]. exact Hid. }
    split; [exact He|]. exists new_channel.
    destruct Hr as [->|(_ & nc & ->)]; reflexivity.
  - apply IH. intros r0 Hr0. apply Hall. by right.
Qed.

Lemma renew_loop_kept env now rows0 : ∀ channels k rows renewals,
  NoDup (nc_id <$> rows0) →
  (∀ c, c ∈ channels → c ∈ rows0 ∧ expiring now c) →
  Forall2 (kept_or_renewed now) rows0 rows →
  Forall2 (kept_or_renewed now) rows0 (renew_loop env k channels rows renewals).1.
Proof.
  induction channels as [|channel rest IH]; intros k rows renewals Hnd Hc H;
    [exact H|].
  cbn [renew_loop].
  assert (Hrest : ∀ c, c ∈ rest → c ∈ rows0 ∧ expiring now c)
    by (intros c Hin; apply Hc; by right).
  destruct (Hc channel) as [Hin He]; [left|].
  destruct (setup_watch _ _) as [new_channel|e]; [|by apply IH].
  destruct (update_row _ _ _ _) as [rows'|e] eqn:Eu; [|exact H].
  apply update_row_Return in Eu as (-> & _ & _).
  apply IH; [exact Hnd|exact Hrest|]. by apply assigned_kept.
Qed.

Lemma Forall2_kept_refl now rows : Forall2 (kept_or_renewed now) rows rows.
Proof. induction rows; constructor; [by left|assumption]. Qed.

Lemma renew_channels_kept env now rows :
  NoDup (nc_id <$> rows) →
  Forall2 (kept_or_renewed now) rows (renew_channels env now rows).1.
Proof.
  intros Hnd. unfold renew_channels.
  apply renew_loop_kept; [exact Hnd| |apply Forall2_kept_refl].
  intros c Hc. by apply list_elem_of_filter in Hc as [He Hc].
Qed.

(** X20. A run of the renewal job changes the table row by row and in place:
    each row is left as it was or, if it was about to expire, has its channel
    id and expiration replaced; no row is added, dropped or moved, and no
    primary key or folder id changes. *)
Theorem renew_channels_rows (env : Env) (now : datetime)
    (rows : list NotificationChannel) :
  NoDup (nc_id <$> rows) →
  Forall2 (kept_or_renewed now) rows (renew_channels env now rows).1
  ∧ nc_id <$> (renew_channels env now rows).1 = nc_id <$> rows
  ∧ nc_folder_id <$> (renew_channels env now rows).1 = nc_folder_id <$> rows.
Proof.
  intros Hnd. pose proof (renew_channels_kept env now rows Hnd) as H.
  split; [exact H|]. by apply Forall2_kept_ids in H.
Qed.

(** X21. When every registration and every commit of a run goes through
    (the store does not fail, and the run returns: no commit is refused by
    the unique index) and each new channel expires later than the threshold
    of the run, no row of the table the run leaves is about to expire. *)
Theorem renew_channels_converges (env : Env) (now : datetime)
    (rows : list NotificationChannel) :
  NoDup (nc_id <$> rows) →
  (∀ k channel, candidates now rows !! k = Some channel →
     ∃ new_channel,
       setup_watch (api env k) (nc_folder_id channel) = Return new_channel
       ∧ store_ok env k = true
       ∧ (now + hours 6 < ci_expiration new_channel)%Z) →
  returned (renew_channels env now rows).2 = Return tt →
  candidates now (renew_channels env now rows).1 = [].
Proof.
  intros Hnd Hok Hret.
  pose proof (renew_channels_kept env now rows Hnd) as Hkept.
  assert (Hnd' : NoDup (nc_id <$> (renew_channels env now rows).1)).
  { apply Forall2_kept_ids in Hkept as [-> _]. exact Hnd. }
  assert (Hrows : ∀ c, c ∈ candidates now rows →
                    channel_by_id (nc_id c) rows = Some c).
  { intros c Hc. apply channel_by_id_unique; [exact Hnd|].
    by apply list_elem_of_filter in Hc as [_ Hc]. }
  pose proof (renew_loop_returns env (candidates now rows) 0 rows []
                (candidates_NoDup now rows Hnd) Hrows Hret) as Hj.
  fold (renew_channels env now rows) in Hj.
  unfold candidates at 1. apply elem_of_nil_inv.
  intros row' Hrow'. apply list_elem_of_filter in Hrow' as [He' Hin'].
  apply list_elem_of_lookup_1 in Hin' as [i Hi'].
  destruct (Forall2_lookup_r _ _ _ _ _ Hkept Hi') as (row & Hi & Hrow).
  assert (He : expiring now row).
  { destruct Hrow as [->|(He & _)]; assumption. }
  assert (Hid : nc_id row' = nc_id row).
  { by apply kept_or_renewed_id in Hrow as [Hid _]. }
  assert (Hc : row ∈ candidates now rows).
  { apply list_elem_of_filter. split; [exact He|by eapply list_elem_of_lookup_2]. }
  apply list_elem_of_lookup_1 in Hc as [j Hj'].
  destruct (Hok j row Hj') as (new_channel & Hw & Hs & Hlt).
  pose proof (Hj j row Hj') as Hnew. cbn [Nat.add] in Hnew.
  rewrite Hw, <- Hid in Hnew.
  rewrite (channel_by_id_unique _ row' Hnd') in Hnew
    by (by eapply list_elem_of_lookup_2).
  injection Hnew as Hnew. unfold expiring in He'. rewrite Hnew in He'.
  cbn [renewed nc_expiration] in He'. lia.
Qed.

(** X22. The job runs every twelve hours and renews what expires within six:
    a channel that expires between six and twelve hours after a run is not
    a candidate of that run and keeps its row as it is, so it is first a
    candidate at the next run, which starts after its expiration. *)
Theorem renew_channels_lapse (env : Env) (now : datetime)
    (rows : list NotificationChannel) (row : NotificationChannel) :
  NoDup (nc_id <$> rows) → row ∈ rows →
  (now + hours 6 < nc_expiration row)%Z →
  (nc_expiration row < next_run now)%Z →
  channel_by_id (nc_id row) (renew_channels env now rows).1 = Some row
  ∧ (row ∉ candidates now rows)
  ∧ row ∈ candidates (next_run now) (renew_channels env now rows).1.
Proof.
  intros Hnd Hin Hlo Hhi.
  assert (Hnot : ¬ expiring now row) by (unfold expiring; lia).
  assert (Hrow : channel_by_id (nc_id row) (renew_channels env now rows).1 = Some row).
  { unfold renew_channels. rewrite renew_loop_frame.
    - by apply channel_by_id_unique.
    - intros Hc. apply list_elem_of_fmap in Hc as (c & Hc & Hcin).
      apply list_elem_of_filter in Hcin as [Hce Hcin].
      pose proof (channel_by_id_unique rows c Hnd Hcin) as H1.
      pose proof (channel_by_id_unique rows row Hnd Hin) as H2.
      rewrite <- Hc in H1. assert (c = row) as -> by congruence.
      contradiction. }
  split; [exact Hrow|]. split.
  - intros Hc. by apply list_elem_of_filter in Hc as [Hc _].
  - apply list_elem_of_filter.
    apply channel_by_id_elem_of in Hrow as [Hrow _]. split; [|exact Hrow].
    unfold expiring, next_run, hours in *. lia.
Qed.

End SchedulerMore.

Lemma renew_channels_rows_witness :
  Database.nc_folder_id
    <$> (Scheduler.renew_channels Scenario.second_registration_fails 0%Z
           Scenario.three_channels).1
  = ["A"; "B"; "C"].
Proof.
  assert (Hnd : NoDup (Database.nc_id <$> Scenario.three_channels))
    by (apply (bool_decide_unpack _); vm_compute; exact I).
  destruct (renew_channels_rows Scenario.second_registration_fails 0%Z
              Scenario.three_channels Hnd) as (_ & _ & H).
  exact H.
Defined.

Lemma renew_channels_converges_witness :
  Scheduler.candidates 0%Z
    (Scheduler.renew_channels Cases.registrations_work 0%Z
       Scenario.three_channels).1 = [].
Proof.
  assert (Hnd : NoDup (Database.nc_id <$> Scenario.three_channels))
    by (apply (bool_decide_unpack _); vm_compute; exact I).
  apply (renew_channels_converges Cases.registrations_work 0%Z
           Scenario.three_channels Hnd); [|reflexivity].
  intros k channel Hk. eexists. split; [reflexivity|]. split; [reflexivity|].
  vm_compute. reflexivity.
Defined.

Lemma renew_channels_lapse_witness :
  Database.channel_by_id 1
    (Scheduler.renew_channels Cases.registrations_work 0%Z
       [Cases.expires_in_eight_hours]).1
  = Some Cases.expires_in_eight_hours
  ∧ Cases.expires_in_eight_hours
    ∈ Scheduler.candidates (Service.next_run 0%Z)
        (Scheduler.renew_channels Cases.registrations_work 0%Z
           [Cases.expires_in_eight_hours]).1.
Proof.
  assert (Hnd : NoDup (Database.nc_id <$> [Cases.expires_in_eight_hours]))
    by (apply (bool_decide_unpack _); vm_compute; exact I).
  assert (Hin : Cases.expires_in_eight_hours ∈ [Cases.expires_in_eight_hours])
    by (apply list_elem_of_singleton; reflexivity).
  assert (Hlo : (0 + Database.hours 6
                 < Database.nc_expiration Cases.expires_in_eight_hours)%Z)
    by (vm_compute; reflexivity).
  assert (Hhi : (Database.nc_expiration Cases.expires_in_eight_hours
                 < Service.next_run 0)%Z)
    by (vm_compute; reflexivity).
  destruct (renew_channels_lapse Cases.registrations_work 0%Z
              [Cases.expires_in_eight_hours] Cases.expires_in_eight_hours
              Hnd Hin Hlo Hhi) as (H1 & _ & H2).
  split; assumption.
Defined.
